(** * Local events finder: the event normalization pipeline of [app.py]

    A shallow embedding of the pure part of the Flask application
    (categorizer, date and location normalizers, aggregator, digest
    builder, search and filter handlers) together with the properties
    its specification states about them.

    Conventions.
    - A Python [str] is a [string]; its characters are read as the code
      points U+0000..U+00FF, on which [lower], [strip] and slicing behave
      as defined below.  The pictographs of the digest lie outside that
      range and are carried as their UTF-8 bytes; nothing measures or
      slices them.
    - A naive [datetime] is the record of its seven fields, compared
      field by field as Python does.
    - Library calls whose result depends on the outside world or on a
      large table ([strptime], [dateutil.parser.parse], [strftime], the
      HTTP fetches, reportlab's markup check and layout engine) are
      section variables. *)

From Stdlib Require Import ZArith Ascii String List Bool Lia DecimalString.
From stdpp Require Import base gmap strings list.
Import ListNotations.

Local Open Scope string_scope.
Local Open Scope list_scope.
Local Open Scope Z_scope.

(** ** Python strings *)

Module Str.

(** [c.isspace()] on U+0000..U+00FF. *)
Definition is_space (c : ascii) : bool :=
  let n := N_of_ascii c in
  ((9 <=? n) && (n <=? 13) || (28 <=? n) && (n <=? 32)
   || (n =? 133) || (n =? 160))%N.

(** Upper-case code points of U+0000..U+00FF that [lower()] moves. *)
Definition is_upper (c : ascii) : bool :=
  let n := N_of_ascii c in
  ((65 <=? n) && (n <=? 90) || (192 <=? n) && (n <=? 214)
   || (216 <=? n) && (n <=? 222))%N.

Definition lower_char (c : ascii) : ascii :=
  if is_upper c then ascii_of_N (N_of_ascii c + 32) else c.

(** [s.lower()] *)
Fixpoint lower (s : string) : string :=
  match s with
  | EmptyString => EmptyString
  | String c s' => String (lower_char c) (lower s')
  end.

(** [s.lstrip()], [s.rstrip()], [s.strip()] *)
Fixpoint lstrip (s : string) : string :=
  match s with
  | EmptyString => EmptyString
  | String c s' => if is_space c then lstrip s' else s
  end.

Fixpoint rstrip (s : string) : string :=
  match s with
  | EmptyString => EmptyString
  | String c s' =>
      match rstrip s' with
      | EmptyString => if is_space c then EmptyString else String c EmptyString
      | r => String c r
      end
  end.

Definition strip (s : string) : string := rstrip (lstrip s).

(** [len(s)] *)
Definition len (s : string) : Z := Z.of_nat (String.length s).

(** [s.startswith(p)] *)
Fixpoint startswith (s p : string) {struct p} : bool :=
  match p, s with
  | EmptyString, _ => true
  | String a p', String b s' => Ascii.eqb a b && startswith s' p'
  | String _ _, EmptyString => false
  end.

(** [s[n:]] and [s[:n]] for [n >= 0] *)
Fixpoint drop (n : nat) (s : string) : string :=
  match n, s with
  | O, _ => s
  | S n', String _ s' => drop n' s'
  | S _, EmptyString => EmptyString
  end.

Fixpoint take (n : nat) (s : string) : string :=
  match n, s with
  | S n', String c s' => String c (take n' s')
  | _, _ => EmptyString
  end.

(** [k in s]: [k] occurs in [s] as a contiguous run. *)
Fixpoint contains (k s : string) : bool :=
  startswith s k ||
  match s with
  | EmptyString => false
  | String _ s' => contains k s'
  end.

(** [s.replace(c, r)] for a one-character pattern [c]. *)
Fixpoint replace (c : ascii) (r : string) (s : string) : string :=
  match s with
  | EmptyString => EmptyString
  | String a s' =>
      if Ascii.eqb a c then r +:+ replace c r s' else String a (replace c r s')
  end.

(** [not s] *)
Definition is_empty (s : string) : bool :=
  match s with EmptyString => true | _ => false end.

(** Declarative reading of [k in s]. *)
Definition occurs (k s : string) : Prop :=
  exists pre post, s = pre +:+ k +:+ post.

(** [s.split(c)] for a one-character separator [c]: at least one piece. *)
Fixpoint split (c : ascii) (s : string) : list string :=
  match s with
  | EmptyString => [EmptyString]
  | String a s' =>
      if Ascii.eqb a c then EmptyString :: split c s'
      else match split c s' with
           | piece :: pieces => String a piece :: pieces
           | [] => [String a EmptyString]
           end
  end.

End Str.

(** ** Categorizer *)

(** [EVENT_CATEGORIES]: a dict literal, iterated in insertion order. *)
Definition EVENT_CATEGORIES : list (string * list string) :=
  [ ("music", ["concert"; "band"; "dj"; "music"; "live music"; "festival";
               "acoustic"; "jazz"; "rock"; "pop"]);
    ("sports", ["game"; "match"; "tournament"; "league"; "sports"; "football";
                "basketball"; "soccer"; "tennis"; "golf"]);
    ("arts", ["art"; "museum"; "gallery"; "exhibition"; "theater";
              "performance"; "dance"; "ballet"; "opera"; "sculpture"]);
    ("technology", ["tech"; "coding"; "hackathon"; "conference"; "workshop";
                    "ai"; "startup"; "programming"; "software"; "digital"]);
    ("food", ["food"; "cooking"; "tasting"; "restaurant"; "culinary"; "wine";
              "beer"; "chef"; "dining"; "cuisine"]);
    ("education", ["workshop"; "seminar"; "lecture"; "course"; "training";
                   "webinar"; "class"; "learning"; "tutorial"]);
    ("networking", ["networking"; "meetup"; "professional"; "business";
                    "career"; "entrepreneur"; "corporate"]);
    ("other", []) ].

(** The loop [for category, keywords in items: if any(...): return category],
    followed by [return 'other']. *)
Fixpoint first_category (items : list (string * list string)) (text : string)
  : string :=
  match items with
  | [] => "other"
  | (category, keywords) :: rest =>
      if existsb (fun keyword => Str.contains keyword text) keywords
      then category
      else first_category rest text
  end.

Definition categorize_event (title description : string) : string :=
  let text := Str.lower (title +:+ " " +:+ description) in
  first_category EVENT_CATEGORIES text.

(** ** Location cleanup *)

Definition prefixes_to_remove : list string :=
  ["Location:"; "Venue:"; "Address:"; "Where:"].

Definition generic_locations : list string :=
  ["tba"; "to be announced"; "online"; "virtual"].

(** [x in xs] for a list of strings *)
Definition str_in (x : string) (xs : list string) : bool :=
  existsb (String.eqb x) xs.

(** One turn of the prefix loop:
    [if location.startswith(prefix): location = location[len(prefix):].strip()] *)
Definition remove_prefix (location prefix : string) : string :=
  if Str.startswith location prefix
  then Str.strip (Str.drop (String.length prefix) location)
  else location.

Definition parse_event_location (location_string city : string) : string :=
  if Str.is_empty location_string || String.eqb (Str.strip location_string) city
  then "Downtown " +:+ city
  else
    let location := Str.strip location_string in
    let location := fold_left remove_prefix prefixes_to_remove location in
    if (Str.len location <? 5) || str_in (Str.lower location) generic_locations
    then city +:+ " Area"
    else location.

(** The cleanup as the specification words it: strip the label prefixes,
    then test length, vocabulary and equality with the city, all three
    leading to the ["<City> Area"] placeholder. *)
Definition location_cleanup_spec (location_string city : string) : string :=
  let location :=
    fold_left remove_prefix prefixes_to_remove (Str.strip location_string) in
  if (Str.len location <? 5) || str_in (Str.lower location) generic_locations
     || String.eqb (Str.strip location) city
  then city +:+ " Area"
  else location.

(** ** Naive datetimes *)

Record datetime := mkdt {
  year : Z; month : Z; day : Z;
  hour : Z; minute : Z; second : Z; microsecond : Z }.

Definition MAXYEAR : Z := 9999.

Definition is_leap (y : Z) : bool :=
  (y mod 4 =? 0) && (negb (y mod 100 =? 0) || (y mod 400 =? 0)).

Definition days_in_month (y m : Z) : Z :=
  if m =? 2 then (if is_leap y then 29 else 28)
  else if (m =? 4) || (m =? 6) || (m =? 9) || (m =? 11) then 30
  else if (1 <=? m) && (m <=? 12) then 31
  else 0.

(** The range checks of the [datetime] constructor. *)
Definition valid_datetime (d : datetime) : bool :=
  (1 <=? year d) && (year d <=? MAXYEAR)
  && (1 <=? month d) && (month d <=? 12)
  && (1 <=? day d) && (day d <=? days_in_month (year d) (month d))
  && (0 <=? hour d) && (hour d <? 24)
  && (0 <=? minute d) && (minute d <? 60)
  && (0 <=? second d) && (second d <? 60)
  && (0 <=? microsecond d) && (microsecond d <? 1000000).

(** Comparison of two naive datetimes: field by field, most significant
    first. *)
Definition lex (c : comparison) (k : comparison) : comparison :=
  match c with Eq => k | _ => c end.

Definition dt_compare (a b : datetime) : comparison :=
  lex (year a ?= year b)
  (lex (month a ?= month b)
  (lex (day a ?= day b)
  (lex (hour a ?= hour b)
  (lex (minute a ?= minute b)
  (lex (second a ?= second b)
       (microsecond a ?= microsecond b)))))).

(** [a < b], [a <= b] *)
Definition dt_ltb (a b : datetime) : bool :=
  match dt_compare a b with Lt => true | _ => false end.

Definition dt_leb (a b : datetime) : bool :=
  match dt_compare a b with Gt => false | _ => true end.

(** [d.replace(year=y)]: [None] stands for the [ValueError] the constructor
    raises when the new field values are out of range. *)
Definition replace_year (d : datetime) (y : Z) : option datetime :=
  let d' := mkdt y (month d) (day d) (hour d) (minute d) (second d)
                 (microsecond d) in
  if valid_datetime d' then Some d' else None.

(** *** Adding a timedelta *)

Record timedelta := mktd { td_days : Z; td_seconds : Z; td_microseconds : Z }.

(** [timedelta(days=.., hours=.., minutes=..)], normalized as Python does. *)
Definition make_timedelta (days hours minutes : Z) : timedelta :=
  let s := hours * 3600 + minutes * 60 in
  mktd (days + s / 86400) (s mod 86400) 0.

(** The calendar day after the date of [d]; [None] past 9999-12-31. *)
Definition advance_day (d : datetime) : option datetime :=
  if day d <? days_in_month (year d) (month d) then
    Some (mkdt (year d) (month d) (day d + 1)
               (hour d) (minute d) (second d) (microsecond d))
  else if month d <? 12 then
    Some (mkdt (year d) (month d + 1) 1
               (hour d) (minute d) (second d) (microsecond d))
  else if year d <? MAXYEAR then
    Some (mkdt (year d + 1) 1 1
               (hour d) (minute d) (second d) (microsecond d))
  else None.

Fixpoint add_days (n : nat) (d : datetime) : option datetime :=
  match n with
  | O => Some d
  | S n' =>
      match advance_day d with
      | Some d' => add_days n' d'
      | None => None
      end
  end.

(** [d + delta] for a non-negative [delta] (the program builds no other):
    the time of day is advanced, the carry and [delta.days] move the date
    forward.  [None] stands for [OverflowError]. *)
Definition dt_add (d : datetime) (delta : timedelta) : option datetime :=
  let us := microsecond d + td_microseconds delta in
  let s := hour d * 3600 + minute d * 60 + second d
           + td_seconds delta + us / 1000000 in
  let days := td_days delta + s / 86400 in
  let r := s mod 86400 in
  match add_days (Z.to_nat days) d with
  | Some d' =>
      Some (mkdt (year d') (month d') (day d')
                 (r / 3600) (r mod 3600 / 60) (r mod 60) (us mod 1000000))
  | None => None
  end.

(** ** Exceptions *)

Inductive exn := ValueError | TypeError | OverflowError.

Inductive result (A : Type) :=
| Ok (a : A)
| Raise (e : exn).
Arguments Ok {A} a.
Arguments Raise {A} e.

Definition rbind {A B} (r : result A) (k : A -> result B) : result B :=
  match r with Ok a => k a | Raise e => Raise e end.

Notation "x <-r c ; k" := (rbind c (fun x => k))
  (at level 20, c at level 100, k at level 200, only parsing).

(** ** Event records *)

(** What the ['parsed_datetime'] entry of an event dict can hold: [None],
    a [datetime] (events built in this process) or a string (events decoded
    from a JSON request body, where no datetime survives). *)
Inductive pyval :=
| PNone
| PStr (s : string)
| PDatetime (d : datetime).

Record event := mkevent {
  title : string;
  date_time : string;
  parsed_datetime : pyval;
  location : string;
  description : string;
  category : string;
  event_url : string }.

(** Truth value of a [pyval] *)
Definition truthy (v : pyval) : bool :=
  match v with
  | PNone => false
  | PStr s => negb (Str.is_empty s)
  | PDatetime _ => true
  end.

(** [v >= d] and [v <= d] against a datetime: ordering a string (or [None])
    with a datetime raises [TypeError]. *)
Definition py_ge (v : pyval) (d : datetime) : result bool :=
  match v with
  | PDatetime x => Ok (dt_leb d x)
  | _ => Raise TypeError
  end.

Definition py_le (v : pyval) (d : datetime) : result bool :=
  match v with
  | PDatetime x => Ok (dt_leb x d)
  | _ => Raise TypeError
  end.

(** A value that [request.get_json()] can produce. *)
Definition json_value (v : pyval) : Prop :=
  match v with PDatetime _ => False | _ => True end.

(** What [dateutil.parser.parse] returns: a naive datetime, or an aware one
    when the text names a time zone. *)
Inductive parsed :=
| Naive (d : datetime)
| Aware (d : datetime) (utcoffset : Z).

(** Outcome of the [try] block run on one event card: the appended event,
    or nothing when the card is skipped. *)
Definition card := option event.

(** Outcome of one HTTP fetch followed by card selection: [None] when the
    request or the parsing raised. *)
Definition page := option (list card).

(** ** Fetches: a state monad over the request log *)

Definition M (A : Type) : Type := list string -> A * list string.

Definition ret {A} (a : A) : M A := fun log => (a, log).

Definition bind {A B} (m : M A) (k : A -> M B) : M B :=
  fun log => let '(a, log') := m log in k a log'.

Notation "x <-m c ; k" := (bind c (fun x => k))
  (at level 20, c at level 100, k at level 200, only parsing).

Definition nl : string := String "010"%char EmptyString.

(** [str(n)] for a non-negative integer *)
Definition str_of_nat (n : nat) : string :=
  DecimalString.NilEmpty.string_of_uint (Nat.to_uint n).

Definition title_key (e : event) : string := Str.strip (Str.lower (title e)).

(** The deduplication loop, with its [seen_titles] set. *)
Fixpoint unique_loop (all_events : list event) (seen_titles : gset string)
  : list event :=
  match all_events with
  | [] => []
  | e :: rest =>
      if decide (title_key e ∈ seen_titles)
      then unique_loop rest seen_titles
      else e :: unique_loop rest ({[title_key e]} ∪ seen_titles)
  end.

Section App.

(** [datetime.strptime(text, format)]; [None] is its [ValueError]. *)
Variable strptime : string -> string -> option datetime.

(** [dateutil.parser.parse(text, fuzzy=True)]; [None] is any exception. *)
Variable fuzzy_parse : string -> option parsed.

(** [d.strftime(format)] *)
Variable strftime : datetime -> string -> string.

(** Successive readings of [datetime.now()]: [clock k] is returned by the
    read that follows [k] earlier ones. *)
Variable clock : nat -> datetime.

(** The answer of the network to the request that follows [k] earlier
    ones, as the selected cards of the page. *)
Variable world : nat -> string -> page.

(** ** Date/time parser *)

Definition patterns : list string :=
  [ "%A, %B %d, %Y at %I:%M %p";
    "%B %d, %Y at %I:%M %p";
    "%m/%d/%Y at %I:%M %p";
    "%Y-%m-%d %H:%M:%S";
    "%A, %b %d at %I:%M %p" ].

(** [if parsed_date < now: parsed_date = parsed_date.replace(year=now.year + 1)];
    [None] is the [ValueError] of [replace]. *)
Definition handle_past (parsed_date now : datetime) : option datetime :=
  if dt_ltb parsed_date now
  then replace_year parsed_date (year now + 1)
  else Some parsed_date.

(** The fallback to dateutil; every exception gives [None].  An aware
    result cannot be ordered with the naive [now]: [TypeError]. *)
Definition fuzzy_fallback (date_string : string) (t : nat)
  : option datetime * nat :=
  match fuzzy_parse date_string with
  | None => (None, t)
  | Some (Aware _ _) => (None, S t)
  | Some (Naive parsed_date) => (handle_past parsed_date (clock t), S t)
  end.

(** The loop over [patterns]; [t] counts the clock reads made so far.  A
    [ValueError], of [strptime] or of [replace], moves on to the next
    pattern. *)
Fixpoint try_patterns (ps : list string) (date_string : string) (t : nat)
  : option datetime * nat :=
  match ps with
  | [] => fuzzy_fallback date_string t
  | pattern :: rest =>
      match strptime date_string pattern with
      | None => try_patterns rest date_string t
      | Some parsed_date =>
          match handle_past parsed_date (clock t) with
          | Some r => (Some r, S t)
          | None => try_patterns rest date_string (S t)
          end
      end
  end.

Definition parse_event_datetime (date_string city : string) (t : nat)
  : option datetime * nat :=
  if Str.is_empty date_string || String.eqb date_string "Date/Time TBA"
  then (None, t)
  else try_patterns patterns date_string t.

(** ** Source extractors, down to the fetch and the per-card outcome *)

Definition fetch (url : string) : M page :=
  fun log => (world (List.length log) url, log ++ [url]).

(** The events appended by [for card in event_cards[:n]]. *)
Definition extract (n : nat) (event_cards : list card) : list event :=
  omap id (firstn n event_cards).

Definition eventbrite_urls (city : string) : list string :=
  [ "https://www.eventbrite.com/d/"
      +:+ Str.replace " " "-" (Str.lower city) +:+ "/events/";
    "https://www.eventbrite.com/d/" +:+ Str.lower city +:+ "/events/";
    "https://www.eventbrite.com/e/search?q=" +:+ Str.replace " " "%20" city ].

Fixpoint eventbrite_loop (urls : list string) (events : list event)
  : M (list event) :=
  match urls with
  | [] => ret events
  | url :: rest =>
      p <-m fetch url;
      match p with
      | None => eventbrite_loop rest events
      | Some event_cards =>
          let events' := events ++ extract 8 event_cards in
          match events' with
          | [] => eventbrite_loop rest events'
          | _ => ret events'
          end
      end
  end.

Definition scrape_eventbrite_events (city : string) : M (list event) :=
  eventbrite_loop (eventbrite_urls city) [].

Definition scrape_meetup_events (city : string) : M (list event) :=
  p <-m fetch ("https://www.meetup.com/find/?keywords=&location="
               +:+ Str.replace " " "%20" city);
  match p with
  | None => ret []
  | Some event_cards => ret (extract 6 event_cards)
  end.

(** ** Aggregator *)

(** The concatenation [all_events]: source A, then source B when fewer
    than 5 events were gathered. *)
Definition collect (city : string) : M (list event) :=
  eventbrite_events <-m scrape_eventbrite_events city;
  let all_events :=
    match eventbrite_events with [] => [] | _ => [] ++ eventbrite_events end in
  if (List.length all_events <? 5)%nat then
    meetup_events <-m scrape_meetup_events city;
    ret (match meetup_events with
         | [] => all_events
         | _ => all_events ++ meetup_events
         end)
  else ret all_events.

Definition add (d : datetime) (delta : timedelta) : result datetime :=
  match dt_add d delta with Some r => Ok r | None => Raise OverflowError end.

(** The five demo events, anchored at [now + 1 day]. *)
Definition demo_events (city : string) (now : datetime) : result (list event) :=
  base_date <-r add now (make_timedelta 1 0 0);
  d1 <-r add base_date (make_timedelta 1 0 0);
  p1 <-r add base_date (make_timedelta 1 14 0);
  d2 <-r add base_date (make_timedelta 3 0 0);
  p2 <-r add base_date (make_timedelta 3 18 0);
  d3 <-r add base_date (make_timedelta 2 0 0);
  p3 <-r add base_date (make_timedelta 2 8 0);
  d4 <-r add base_date (make_timedelta 4 0 0);
  p4 <-r add base_date (make_timedelta 4 20 0);
  d5 <-r add base_date (make_timedelta 5 0 0);
  p5 <-r add base_date (make_timedelta 5 7 30);
  Ok [ {| title := "Community Art Festival - " +:+ city;
          date_time := strftime d1 "%A, %B %d, %Y at 2:00 PM";
          parsed_datetime := PDatetime p1;
          location := "Downtown " +:+ city;
          description := "Join us for a vibrant community art festival featuring local artists, live music, and food vendors. Experience the best of local creativity with interactive exhibits, workshops, and performances.";
          category := "arts";
          event_url := "https://www.eventbrite.com/d/"
            +:+ Str.replace " " "-" (Str.lower city) +:+ "/events/" |};
       {| title := "Tech Innovation Meetup - " +:+ city;
          date_time := strftime d2 "%A, %B %d, %Y at 6:00 PM";
          parsed_datetime := PDatetime p2;
          location := city +:+ " Convention Center";
          description := "Network with local tech professionals and learn about the latest trends in artificial intelligence, blockchain, and software development. Featuring keynote speakers and networking opportunities.";
          category := "technology";
          event_url := "https://www.meetup.com/find/?keywords=tech&location="
            +:+ Str.replace " " "%20" city |};
       {| title := "Weekend Farmers Market - " +:+ city;
          date_time := strftime d3 "%A, %B %d, %Y at 8:00 AM";
          parsed_datetime := PDatetime p3;
          location := city +:+ " City Square";
          description := "Fresh produce, local crafts, and delicious food from local vendors every weekend. Support local farmers and artisans while enjoying live music and family-friendly activities.";
          category := "food";
          event_url := "https://www.eventbrite.com/d/"
            +:+ Str.replace " " "-" (Str.lower city)
            +:+ "/food--and--drink--events/" |};
       {| title := "Live Jazz Night - " +:+ city;
          date_time := strftime d4 "%A, %B %d, %Y at 8:00 PM";
          parsed_datetime := PDatetime p4;
          location := "Blue Note Cafe, " +:+ city;
          description := "An evening of smooth jazz featuring local musicians and guest performers. Enjoy craft cocktails and appetizers while listening to the best jazz music in the city.";
          category := "music";
          event_url := "https://www.eventbrite.com/d/"
            +:+ Str.replace " " "-" (Str.lower city) +:+ "/music--events/" |};
       {| title := "Business Networking Breakfast - " +:+ city;
          date_time := strftime d5 "%A, %B %d, %Y at 7:30 AM";
          parsed_datetime := PDatetime p5;
          location := city +:+ " Business Center";
          description := "Connect with local entrepreneurs, business owners, and professionals over breakfast. Exchange ideas, build partnerships, and grow your professional network.";
          category := "networking";
          event_url :=
            "https://www.meetup.com/find/?keywords=networking&location="
            +:+ Str.replace " " "%20" city |} ].

(** Deduplication, fallback and the final slice, on the concatenation.
    [now] is what [datetime.now()] returns if the fallback reads it. *)
Definition finish (city : string) (now : datetime) (all_events : list event)
  : result (list event) :=
  let unique_events := unique_loop all_events ∅ in
  unique_events <-r
    match unique_events with
    | [] => demo_events city now
    | _ => Ok unique_events
    end;
  Ok (firstn 10 unique_events).

Definition get_events_from_multiple_sources (city : string) (now : datetime)
  : M (result (list event)) :=
  all_events <-m collect city;
  ret (finish city now all_events).

(** ** Digest builder *)

Definition digest_entry (i : nat) (e : event) : string :=
  str_of_nat i +:+ ". " +:+ title e +:+ nl
  +:+ "   📅 " +:+ date_time e +:+ nl
  +:+ "   📍 " +:+ location e +:+ nl
  +:+ "   📝 " +:+ Str.take 100 (description e) +:+ "..." +:+ nl +:+ nl.

(** [for i, event in enumerate(top_events, i0)] *)
Fixpoint digest_entries (i : nat) (top_events : list event) : string :=
  match top_events with
  | [] => ""
  | e :: rest => digest_entry i e +:+ digest_entries (S i) rest
  end.

Definition create_weekend_digest (events : list event) : string :=
  match events with
  | [] => "No events found for this weekend."
  | _ =>
      let top_events := firstn 3 events in
      "🎉 Weekend Plan Digest 🎉" +:+ nl +:+ nl
      +:+ "Here are the top " +:+ str_of_nat (List.length top_events)
      +:+ " events happening this weekend:" +:+ nl +:+ nl
      +:+ digest_entries 1 top_events
      +:+ "Have a great weekend exploring these amazing events! 🌟"
  end.

(** ** Request handlers *)

Inductive response :=
| JsonError (error : string)
| JsonSearch (city : string) (events : list event) (digest : string)
             (total_events : nat)
| JsonFilter (events : list event) (total : nat).

(** [/search]; [form_city] is the ['city'] field of the form, [None] when
    the form has no such field. *)
Definition search_events (form_city : option string) (now : datetime)
  : M (result response) :=
  let city := Str.strip (default "Detroit" form_city) in
  if Str.is_empty city then ret (Ok (JsonError "Please enter a city name"))
  else
    r <-m get_events_from_multiple_sources city now;
    ret (events <-r r;
         let digest := create_weekend_digest events in
         Ok (JsonSearch city events digest (List.length events))).

(** The [filters] object of a filter request; a missing key is [None]. *)
Record filter_spec := mkfilters {
  f_category : option string;
  f_date_from : option string;
  f_date_to : option string;
  f_search : option string }.

(** [filters.get(key)] is truthy: present and not the empty string. *)
Definition given (o : option string) : option string :=
  match o with
  | Some s => if Str.is_empty s then None else Some s
  | None => None
  end.

(** A list comprehension [[e for e in events if p(e)]] whose condition
    may raise. *)
Fixpoint filter_r (p : event -> result bool) (events : list event)
  : result (list event) :=
  match events with
  | [] => Ok []
  | e :: rest =>
      b <-r p e;
      rest' <-r filter_r p rest;
      Ok (if b then e :: rest' else rest')
  end.

Definition strptime_r (text format : string) : result datetime :=
  match strptime text format with
  | Some d => Ok d
  | None => Raise ValueError
  end.

Definition category_filter (filters : filter_spec) (events : list event)
  : list event :=
  match given (f_category filters) with
  | Some c =>
      if negb (String.eqb c "all")
      then List.filter (fun e => String.eqb (category e) c) events
      else events
  | None => events
  end.

Definition date_from_filter (filters : filter_spec) (events : list event)
  : result (list event) :=
  match given (f_date_from filters) with
  | Some text =>
      from_date <-r strptime_r text "%Y-%m-%d";
      filter_r (fun e => if truthy (parsed_datetime e)
                         then py_ge (parsed_datetime e) from_date
                         else Ok false) events
  | None => Ok events
  end.

Definition date_to_filter (filters : filter_spec) (events : list event)
  : result (list event) :=
  match given (f_date_to filters) with
  | Some text =>
      to_date <-r strptime_r text "%Y-%m-%d";
      filter_r (fun e => if truthy (parsed_datetime e)
                         then py_le (parsed_datetime e) to_date
                         else Ok false) events
  | None => Ok events
  end.

Definition search_filter (filters : filter_spec) (events : list event)
  : list event :=
  match given (f_search filters) with
  | Some text =>
      let search_term := Str.lower text in
      List.filter (fun e => Str.contains search_term (Str.lower (title e))
                            || Str.contains search_term
                                 (Str.lower (description e))) events
  | None => events
  end.

(** [/filter-events] *)
Definition filter_events (events : list event) (filters : filter_spec)
  : result response :=
  let filtered_events := category_filter filters events in
  filtered_events <-r date_from_filter filters filtered_events;
  filtered_events <-r date_to_filter filters filtered_events;
  let filtered_events := search_filter filters filtered_events in
  Ok (JsonFilter filtered_events (List.length filtered_events)).

End App.

(** ** Report *)

(** The flowables of the PDF story, with the style sheet entries the
    report uses; the layout engine that renders them is outside. *)
Inductive style := CustomTitle | Heading2 | Heading3 | Normal.

Inductive flowable :=
| Paragraph (text : string) (st : style)
| Spacer (width height : Z).

Section Report.

(** Whether reportlab's paragraph parser accepts a text: [Paragraph(text,
    style)] parses its text when it is constructed and raises [ValueError]
    on markup it rejects. *)
Variable markup_ok : string -> bool.

(** [doc.build(story)] followed by rewinding the buffer: the bytes of the
    document, or the exception of the layout engine. *)
Variable doc_build : list flowable -> result string.

(** [d.strftime(format)] *)
Variable strftime : datetime -> string -> string.

(** [Paragraph(text, style)] *)
Definition paragraph (text : string) (st : style) : result flowable :=
  if markup_ok text then Ok (Paragraph text st) else Raise ValueError.

(** The loop over the lines of the digest: a paragraph for each line that
    is not blank. *)
Fixpoint digest_story (digest_paragraphs : list string)
  : result (list flowable) :=
  match digest_paragraphs with
  | [] => Ok []
  | para :: rest =>
      if negb (Str.is_empty (Str.strip para)) then
        p <-r paragraph para Normal;
        ps <-r digest_story rest;
        Ok (p :: ps)
      else digest_story rest
  end.

(** The four paragraphs and the spacer appended for one event. *)
Definition event_block (e : event) : result (list flowable) :=
  p1 <-r paragraph ("<b>" +:+ title e +:+ "</b>") Heading3;
  p2 <-r paragraph ("<b>Date & Time:</b> " +:+ date_time e) Normal;
  p3 <-r paragraph ("<b>Location:</b> " +:+ location e) Normal;
  p4 <-r paragraph ("<b>Description:</b> " +:+ description e) Normal;
  Ok [p1; p2; p3; p4; Spacer 1 15].

Fixpoint event_blocks (events : list event) : result (list flowable) :=
  match events with
  | [] => Ok []
  | e :: rest =>
      block <-r event_block e;
      blocks <-r event_blocks rest;
      Ok (block ++ blocks)
  end.

(** The [story] that [create_pdf_report] builds before it calls
    [doc.build]; the first paragraph that reportlab rejects ends it. *)
Definition report_story (events : list event) (city digest : string)
  : result (list flowable) :=
  heading <-r paragraph ("Local Events in " +:+ city) CustomTitle;
  digest_heading <-r paragraph "Weekend Plan Digest" Heading2;
  let digest_paragraphs := Str.split "010" digest in
  digest_lines <-r digest_story digest_paragraphs;
  events_heading <-r paragraph "All Events" Heading2;
  blocks <-r event_blocks events;
  Ok ([heading; Spacer 1 20; digest_heading; Spacer 1 12]
      ++ digest_lines
      ++ [Spacer 1 20; events_heading; Spacer 1 12]
      ++ blocks).

Definition create_pdf_report (events : list event) (city digest : string)
  : result string :=
  story <-r report_story events city digest;
  doc_build story.

(** [/download-pdf]: the bytes of the attachment and its file name.  The
    three arguments are the entries of the request body, [None] when the
    key is missing.  The file name is computed once the report exists. *)
Definition download_pdf (city : option string) (events : option (list event))
    (digest : option string) (now : datetime) : result (string * string) :=
  let city := default "Unknown City" city in
  let events := default [] events in
  let digest := default "" digest in
  pdf_buffer <-r create_pdf_report events city digest;
  let filename :=
    "events_" +:+ Str.lower (Str.replace " " "_" city) +:+ "_"
    +:+ strftime now "%Y%m%d" +:+ ".pdf" in
  Ok (pdf_buffer, filename).

End Report.

(** ** Sample instances of the library calls, to run examples

    [sample_strptime] agrees with [datetime.strptime] on the zero-padded
    numeric texts [YYYY-MM-DD] and [YYYY-MM-DD HH:MM:SS] (which only the
    formats ["%Y-%m-%d"] and ["%Y-%m-%d %H:%M:%S"] accept) and answers
    [None] on every other text. *)

Module Sample.

Definition digit (c : ascii) : option Z :=
  let n := Z.of_N (N_of_ascii c) in
  if (48 <=? n) && (n <=? 57) then Some (n - 48) else None.

(** Value of a run of decimal digits, most significant first. *)
Fixpoint number (acc : Z) (cs : list ascii) : option Z :=
  match cs with
  | [] => Some acc
  | c :: rest =>
      match digit c with
      | Some v => number (acc * 10 + v) rest
      | None => None
      end
  end.

Definition checked (d : datetime) : option datetime :=
  if valid_datetime d then Some d else None.

Definition parse_date (cs : list ascii) : option datetime :=
  match cs with
  | [y1; y2; y3; y4; "-"%char; m1; m2; "-"%char; d1; d2] =>
      match number 0 [y1; y2; y3; y4], number 0 [m1; m2], number 0 [d1; d2] with
      | Some y, Some m, Some d => checked (mkdt y m d 0 0 0 0)
      | _, _, _ => None
      end
  | _ => None
  end.

Definition parse_time (cs : list ascii) : option (Z * Z * Z) :=
  match cs with
  | [h1; h2; ":"%char; m1; m2; ":"%char; s1; s2] =>
      match number 0 [h1; h2], number 0 [m1; m2], number 0 [s1; s2] with
      | Some h, Some m, Some s => Some (h, m, s)
      | _, _, _ => None
      end
  | _ => None
  end.

Definition strptime (text format : string) : option datetime :=
  let cs := list_ascii_of_string text in
  if String.eqb format "%Y-%m-%d" then parse_date cs
  else if String.eqb format "%Y-%m-%d %H:%M:%S" then
    match parse_date (firstn 10 cs), skipn 10 cs with
    | Some d, " "%char :: tm =>
        match parse_time tm with
        | Some (h, m, s) =>
            checked (mkdt (year d) (month d) (day d) h m s 0)
        | None => None
        end
    | _, _ => None
    end
  else None.

(** A fuzzy parser that recognizes nothing, a formatter that returns its
    format, a stopped clock and a network that is down. *)
Definition no_fuzzy (text : string) : option parsed := None.
Definition strftime (d : datetime) (format : string) : string := format.
Definition clock_at (now : datetime) (k : nat) : datetime := now.
Definition offline (k : nat) (url : string) : page := None.

Definition now : datetime := mkdt 2026 11 3 9 30 0 0.

(** A markup check that rejects a text opening an [<i>] tag it never
    closes and accepts every other, and a layout engine that always
    answers with the same bytes. *)
Definition markup_ok (text : string) : bool :=
  negb (Str.contains "<i>" text) || Str.contains "</i>" text.
Definition doc_build (story : list flowable) : result string := Ok "%PDF-1.4".

(** An event as [/search] builds it, and as a client posts it back: the
    datetime has become the text that [jsonify] wrote for it. *)
Definition jazz : event :=
  {| title := "Live Jazz Night - Detroit";
     date_time := "Monday, August 31, 2026 at 8:00 PM";
     parsed_datetime := PDatetime (mkdt 2026 8 31 20 0 0 0);
     location := "Blue Note Cafe, Detroit";
     description := "An evening of smooth jazz featuring local musicians.";
     category := "music";
     event_url := "https://www.eventbrite.com/d/detroit/music--events/" |}.

Definition jazz_json : event :=
  {| title := title jazz;
     date_time := date_time jazz;
     parsed_datetime := PStr "Mon, 31 Aug 2026 20:00:00 GMT";
     location := location jazz;
     description := description jazz;
     category := category jazz;
     event_url := event_url jazz |}.

Definition market : event :=
  {| title := "Weekend Farmers Market - Detroit";
     date_time := "Date/Time TBA";
     parsed_datetime := PNone;
     location := "Detroit City Square";
     description := "Fresh produce, local crafts, and delicious food.";
     category := "food";
     event_url := "https://www.eventbrite.com/d/detroit/events/" |}.

(** The same event listed again under another spelling of its title, and
    an event only the second source lists. *)
Definition jazz_again : event :=
  {| title := "  LIVE JAZZ NIGHT - Detroit ";
     date_time := "Date/Time TBA";
     parsed_datetime := PNone;
     location := "Detroit Area";
     description := "Meetup event - check Meetup.com for full details";
     category := "music";
     event_url := "https://www.meetup.com/find/?keywords=&location=Detroit" |}.

Definition talk : event :=
  {| title := "Startup Founders Talk";
     date_time := "Date/Time TBA";
     parsed_datetime := PNone;
     location := "Downtown Detroit";
     description := "Meetup event - check Meetup.com for full details";
     category := "technology";
     event_url := "https://www.meetup.com/find/?keywords=&location=Detroit" |}.

(** A network where the first source lists two events (one card is
    skipped) and the second lists three. *)
Definition online (k : nat) (url : string) : page :=
  if Str.contains "eventbrite" url
  then Some [Some jazz; None; Some market]
  else Some [Some jazz_again; Some talk; Some market].

End Sample.

(** ** Vocabulary of the statements *)

(** The closed set of category tags, in declaration order. *)
Definition categories : list string :=
  ["music"; "sports"; "arts"; "technology"; "food"; "education";
   "networking"; "other"].

(** Some keyword of the list occurs in the text. *)
Definition matches (text : string) (keywords : list string) : Prop :=
  exists k, In k keywords /\ Str.occurs k text.

(** The text parses to the naive (timezone-less) datetime [d]: by the first
    explicit pattern that accepts it ([strptime] with these patterns gives
    naive datetimes only), or, when no pattern accepts it, by the fuzzy
    parser answering with a naive datetime.  A fuzzy answer that carries a
    time zone is not a parse in this sense. *)
Definition parses_to_naive (strptime : string -> string -> option datetime)
    (fuzzy_parse : string -> option parsed) (text : string) (d : datetime)
  : Prop :=
  (exists before pattern after,
      patterns = before ++ pattern :: after
      /\ Forall (fun q => strptime text q = None) before
      /\ strptime text pattern = Some d)
  \/ (Forall (fun q => strptime text q = None) patterns
      /\ fuzzy_parse text = Some (Naive d)).

(** Strict order on the calendar dates and on the times of day of two
    datetimes, and on datetimes. *)
Definition date_lt (a b : datetime) : Prop :=
  year a < year b
  \/ (year a = year b
      /\ (month a < month b \/ (month a = month b /\ day a < day b))).

Definition same_date (a b : datetime) : Prop :=
  year a = year b /\ month a = month b /\ day a = day b.

Definition tod_lt (a b : datetime) : Prop :=
  hour a < hour b
  \/ (hour a = hour b
      /\ (minute a < minute b
          \/ (minute a = minute b
              /\ (second a < second b
                  \/ (second a = second b
                      /\ microsecond a < microsecond b))))).

Definition dt_lt (a b : datetime) : Prop := dt_ltb a b = true.

(** Length of a timedelta in microseconds. *)
Definition td_total (delta : timedelta) : Z :=
  (td_days delta * 86400 + td_seconds delta) * 1000000 + td_microseconds delta.

(** A timedelta in normal form, and non-negative. *)
Definition td_normal (delta : timedelta) : Prop :=
  0 <= td_days delta /\ 0 <= td_seconds delta < 86400
  /\ 0 <= td_microseconds delta < 1000000.

(** The concatenation the aggregator deduplicates: the events of source A
    followed by those of source B, the latter consulted only when source A
    gave fewer than 5. *)
Definition sources_in_order (world : nat -> string -> page) (city : string)
    (log : list string) : list event :=
  let '(a, log1) := scrape_eventbrite_events world city log in
  a ++ (if (List.length a <? 5)%nat
        then fst (scrape_meetup_events world city log1)
        else []).

(** The record at position [j] is the first of the list with its
    normalized title. *)
Definition first_occurrence (all_events : list event) (j : nat) (e : event)
  : Prop :=
  all_events !! j = Some e
  /\ forall k e', (k < j)%nat -> all_events !! k = Some e' ->
                  title_key e' <> title_key e.

(** The resolved times of a list of events are strictly increasing in the
    order of the list. *)
Definition times_increasing (events : list event) : Prop :=
  forall i j a b, (i < j)%nat ->
    parsed_datetime <$> events !! i = Some (PDatetime a) ->
    parsed_datetime <$> events !! j = Some (PDatetime b) ->
    dt_lt a b.

(** * Properties *)

Module StrFacts.
Import Str.

Lemma startswith_spec s p :
  startswith s p = true <-> exists post, s = p +:+ post.
Proof.
  revert s. induction p as [|a p IH]; intros s; simpl.
  - split; [intros _; exists s; reflexivity | reflexivity].
  - destruct s as [|b s]; simpl.
    + split; [discriminate | intros [post H]; discriminate].
    + rewrite andb_true_iff, Ascii.eqb_eq, IH. split.
      * intros [-> [post ->]]. by exists post.
      * intros [post H]. injection H as -> ->. split; [done | by exists post].
Qed.

Lemma contains_spec k s : contains k s = true <-> occurs k s.
Proof.
  induction s as [|a s IH]; simpl.
  - rewrite orb_false_r, startswith_spec. split.
    + intros [post H]. by exists EmptyString, post.
    + intros [pre [post H]]. destruct pre; simpl in H.
      * by exists post.
      * discriminate.
  - rewrite orb_true_iff, startswith_spec, IH. split.
    + intros [[post H] | [pre [post H]]].
      * by exists EmptyString, post.
      * exists (String a pre), post. simpl. by rewrite H.
    + intros [pre [post H]]. destruct pre as [|b pre]; simpl in H.
      * left. by exists post.
      * right. exists pre, post. injection H as _ H. exact H.
Qed.

Lemma contains_false k s : contains k s = false <-> ~ occurs k s.
Proof. rewrite <- contains_spec. by destruct (contains k s). Qed.

Lemma append_cons a s t : String a s +:+ t = String a (s +:+ t).
Proof. reflexivity. Qed.

Lemma append_empty_r s : s +:+ "" = s.
Proof.
  induction s as [|a s IH]; [done | by rewrite append_cons, IH].
Qed.

Lemma take_drop n s : take n s +:+ drop n s = s.
Proof.
  revert s. induction n as [|n IH]; intros [|a s]; simpl; try done.
  by rewrite append_cons, IH.
Qed.

Lemma take_length n s :
  String.length (take n s) = Nat.min n (String.length s).
Proof.
  revert s. induction n as [|n IH]; intros [|a s]; simpl; try done.
  by rewrite IH.
Qed.

Lemma take_all n s : (String.length s <= n)%nat -> take n s = s.
Proof.
  revert s. induction n as [|n IH]; intros [|a s]; simpl; try done.
  - lia.
  - intros H. rewrite IH; [done | lia].
Qed.

Lemma str_in_spec x xs : str_in x xs = true <-> In x xs.
Proof.
  unfold str_in. rewrite existsb_exists. split.
  - intros [y [Hy Heq]]. apply String.eqb_eq in Heq. by subst.
  - intros H. exists x. split; [done | apply String.eqb_refl].
Qed.

End StrFacts.

(** ** Categorizer *)

Lemma any_keyword_spec text keywords :
  existsb (fun keyword => Str.contains keyword text) keywords = true
  <-> matches text keywords.
Proof.
  unfold matches. rewrite existsb_exists.
  split; intros [k [Hin Hk]]; exists k; split; try done;
    by apply StrFacts.contains_spec.
Qed.

Lemma first_category_spec items text :
  let c := first_category items text in
  (exists before keywords after,
      items = before ++ (c, keywords) :: after
      /\ matches text keywords
      /\ Forall (fun item => ~ matches text (snd item)) before)
  \/ (c = "other" /\ Forall (fun item => ~ matches text (snd item)) items).
Proof.
  induction items as [|[category keywords] rest IH]; simpl.
  - right. split; [done | constructor].
  - destruct (existsb _ keywords) eqn:Hany.
    + left. exists [], keywords, rest.
      split; [reflexivity | split; [by apply any_keyword_spec | constructor]].
    + assert (Hno : ~ matches text keywords).
      { rewrite <- any_keyword_spec. by rewrite Hany. }
      destruct IH as [(before & kws & after & Heq & Hm & Hall) | [Hc Hall]].
      * left. exists ((category, keywords) :: before), kws, after.
        split; [simpl; f_equal; exact Heq | split; [done | by constructor]].
      * right. split; [done | by constructor].
Qed.

(** C5. Categorization lowercases the title, a space and the description,
    walks the category table in its declaration order (music, sports,
    arts, technology, food, education, networking, other) and answers the
    first category one of whose keywords occurs in that text, or ["other"]
    when no keyword of any category occurs; the answer is always a member
    of the eight-element category set. *)
Theorem categorize_event_first_match (title description : string) :
  let text := Str.lower (title +:+ " " +:+ description) in
  let c := categorize_event title description in
  map fst EVENT_CATEGORIES = categories
  /\ In c categories
  /\ ((exists before keywords after,
          EVENT_CATEGORIES = before ++ (c, keywords) :: after
          /\ matches text keywords
          /\ Forall (fun item => ~ matches text (snd item)) before)
      \/ (c = "other"
          /\ Forall (fun item => ~ matches text (snd item)) EVENT_CATEGORIES)).
Proof.
  intros text c.
  pose proof (first_category_spec EVENT_CATEGORIES text) as Hspec.
  cbv zeta in Hspec.
  change (first_category EVENT_CATEGORIES text) with c in Hspec.
  split; [reflexivity | split; [| exact Hspec]].
  destruct Hspec as [(before & kws & after & Heq & _) | [-> _]].
  - assert (Hin : In c (map fst EVENT_CATEGORIES)).
    { rewrite Heq, map_app. apply in_or_app. right. by left. }
    exact Hin.
  - unfold categories. simpl. tauto.
Qed.

(** ** Location cleanup *)

(** C3, as stated, fails: a location that is just the city name gets the
    ["Downtown <City>"] placeholder from the guard that runs before any
    prefix is stripped, where the stated cleanup answers ["<City> Area"]. *)
Lemma location_cleanup_city_name_differs :
  parse_event_location "Detroit" "Detroit" = "Downtown Detroit"
  /\ location_cleanup_spec "Detroit" "Detroit" = "Detroit Area"
  /\ parse_event_location "Detroit" "Detroit"
     <> location_cleanup_spec "Detroit" "Detroit".
Proof. vm_compute. repeat split; discriminate. Qed.

(** C3, amended. An empty location, or one whose trimmed text equals the
    city, yields ["Downtown <City>"] before anything is stripped.
    Otherwise the text is trimmed, each label prefix is removed once in
    the order Location:, Venue:, Address:, Where: (trimming after each
    removal), and the result is replaced by ["<City> Area"] exactly when
    its length is below 5 or its lowercase form is one of tba, to be
    announced, online, virtual; else the cleaned text is returned.
    ["Venue: TBA"] for Detroit yields ["Detroit Area"]. *)
Theorem parse_event_location_cases (location_string city : string) :
  let cleaned :=
    fold_left remove_prefix prefixes_to_remove (Str.strip location_string) in
  let generic :=
    Str.len cleaned < 5 \/ In (Str.lower cleaned) generic_locations in
  (location_string = "" \/ Str.strip location_string = city ->
   parse_event_location location_string city = "Downtown " +:+ city)
  /\ (location_string <> "" -> Str.strip location_string <> city ->
      generic ->
      parse_event_location location_string city = city +:+ " Area")
  /\ (location_string <> "" -> Str.strip location_string <> city ->
      ~ generic ->
      parse_event_location location_string city = cleaned)
  /\ parse_event_location "Venue: TBA" "Detroit" = "Detroit Area".
Proof.
  intros cleaned generic. unfold parse_event_location.
  assert (Hgen : (Str.len cleaned <? 5)
                 || str_in (Str.lower cleaned) generic_locations = true
                 <-> generic).
  { unfold generic.
    by rewrite orb_true_iff, Z.ltb_lt, StrFacts.str_in_spec. }
  assert (Hguard : Str.is_empty location_string
                   || String.eqb (Str.strip location_string) city = true
                   <-> location_string = ""
                       \/ Str.strip location_string = city).
  { rewrite orb_true_iff, String.eqb_eq.
    destruct location_string; simpl; intuition congruence. }
  fold cleaned.
  destruct (Str.is_empty location_string || _) eqn:Hg.
  - assert (Hg' : location_string = "" \/ Str.strip location_string = city)
      by (by apply Hguard).
    repeat split; try done; intros; tauto.
  - assert (Hg' : ~ (location_string = "" \/ Str.strip location_string = city)).
    { rewrite <- Hguard. congruence. }
    destruct ((Str.len cleaned <? 5) || _) eqn:Hc.
    + assert generic by (by apply Hgen).
      repeat split; try done; intros; tauto.
    + assert (~ generic) by (rewrite <- Hgen; congruence).
      repeat split; try done; intros; tauto.
Qed.

Lemma parse_event_location_cases_witness :
  parse_event_location "Venue: TBA" "Detroit" = "Detroit" +:+ " Area".
Proof.
  destruct (parse_event_location_cases "Venue: TBA" "Detroit")
    as (_ & Harea & _ & _).
  apply Harea.
  - discriminate.
  - vm_compute. discriminate.
  - right. vm_compute. tauto.
Defined.

(** ** Digest builder *)

(** C7. The digest of no events is the fixed sentence; the digest of three
    or more events has exactly the entries numbered 1, 2, 3 of the first
    three events, in input order, whatever follows them; each entry shows
    the first 100 characters of the description followed by ["..."], also
    when the description had at most 100 characters and is shown whole. *)
Theorem create_weekend_digest_shape :
  create_weekend_digest [] = "No events found for this weekend."
  /\ (forall e1 e2 e3 rest,
        let entry (number : string) (e : event) :=
          number +:+ ". " +:+ title e +:+ nl
          +:+ "   📅 " +:+ date_time e +:+ nl
          +:+ "   📍 " +:+ location e +:+ nl
          +:+ "   📝 " +:+ Str.take 100 (description e) +:+ "..." +:+ nl +:+ nl in
        create_weekend_digest (e1 :: e2 :: e3 :: rest)
        = "🎉 Weekend Plan Digest 🎉" +:+ nl +:+ nl
          +:+ "Here are the top 3 events happening this weekend:" +:+ nl +:+ nl
          +:+ (entry "1" e1 +:+ entry "2" e2 +:+ entry "3" e3)
          +:+ "Have a great weekend exploring these amazing events! 🌟")
  /\ (forall d : string,
        Str.take 100 d +:+ Str.drop 100 d = d
        /\ String.length (Str.take 100 d) = Nat.min 100 (String.length d)
        /\ ((String.length d <= 100)%nat -> Str.take 100 d = d)).
Proof.
  split; [reflexivity | split].
  - intros e1 e2 e3 rest entry.
    unfold create_weekend_digest. cbn [firstn List.length digest_entries].
    rewrite StrFacts.append_empty_r. reflexivity.
  - intros d. split; [apply StrFacts.take_drop | split].
    + apply StrFacts.take_length.
    + apply StrFacts.take_all.
Qed.

(** ** Filter handler *)

Section FilterFacts.

Variable strptime : string -> string -> option datetime.

Lemma list_filter_sublist (p : event -> bool) events :
  List.filter p events `sublist_of` events.
Proof.
  induction events as [|e rest IH]; simpl; [constructor |].
  destruct (p e); by constructor.
Qed.

Lemma filter_r_sublist (p : event -> result bool) events out :
  filter_r p events = Ok out -> out `sublist_of` events.
Proof.
  revert out. induction events as [|e rest IH]; simpl; intros out H.
  - injection H as <-. constructor.
  - destruct (p e) as [b|]; simpl in H; [|discriminate].
    destruct (filter_r p rest) as [rest'|]; simpl in H; [|discriminate].
    injection H as <-. specialize (IH rest' eq_refl).
    destruct b; by constructor.
Qed.

Lemma category_filter_sublist filters events :
  category_filter filters events `sublist_of` events.
Proof.
  unfold category_filter. destruct (given _); [|done].
  destruct (negb _); [apply list_filter_sublist | done].
Qed.

Lemma date_from_filter_sublist filters events out :
  date_from_filter strptime filters events = Ok out ->
  out `sublist_of` events.
Proof.
  unfold date_from_filter. destruct (given _) as [text|].
  - destruct (strptime_r strptime text _); simpl; [|discriminate].
    apply filter_r_sublist.
  - by intros [= <-].
Qed.

Lemma date_to_filter_sublist filters events out :
  date_to_filter strptime filters events = Ok out ->
  out `sublist_of` events.
Proof.
  unfold date_to_filter. destruct (given _) as [text|].
  - destruct (strptime_r strptime text _); simpl; [|discriminate].
    apply filter_r_sublist.
  - by intros [= <-].
Qed.

Lemma search_filter_sublist filters events :
  search_filter filters events `sublist_of` events.
Proof.
  unfold search_filter. destruct (given _); [|done].
  apply list_filter_sublist.
Qed.

(** Without a date bound the handler cannot raise. *)
Lemma filter_events_total filters events :
  given (f_date_from filters) = None ->
  given (f_date_to filters) = None ->
  exists out, filter_events strptime events filters
              = Ok (JsonFilter out (List.length out)).
Proof.
  intros Hfrom Hto. unfold filter_events, date_from_filter, date_to_filter.
  rewrite Hfrom, Hto. simpl. by eexists.
Qed.

(** C10. Whatever the filter options, the events a filter request returns
    form a subsequence of the submitted list: every output record is an
    input record, none is repeated beyond its occurrences in the input,
    and the relative order is kept. *)
Theorem filter_events_subsequence events filters out total :
  filter_events strptime events filters = Ok (JsonFilter out total) ->
  out `sublist_of` events /\ total = List.length out.
Proof.
  unfold filter_events. intros H.
  destruct (date_from_filter _ _ _) as [l1|] eqn:H1; simpl in H; [|discriminate].
  destruct (date_to_filter _ _ _) as [l2|] eqn:H2; simpl in H; [|discriminate].
  injection H as <- <-. split; [|done].
  transitivity l2; [apply search_filter_sublist |].
  transitivity l1; [by eapply date_to_filter_sublist |].
  transitivity (category_filter filters events);
    [by eapply date_from_filter_sublist | apply category_filter_sublist].
Qed.

(** With only JSON values in the events, a date bound keeps no record:
    the falsy ones are dropped and the first truthy one raises. *)
Lemma filter_r_json (cmp : pyval -> datetime -> result bool) bound events out :
  (forall v d, json_value v -> cmp v d = Raise TypeError) ->
  Forall (fun e => json_value (parsed_datetime e)) events ->
  filter_r (fun e => if truthy (parsed_datetime e)
                     then cmp (parsed_datetime e) bound
                     else Ok false) events = Ok out ->
  out = [].
Proof.
  intros Hcmp Hjson. revert out.
  induction Hjson as [|e rest He _ IH]; simpl; intros out H.
  - by injection H.
  - destruct (truthy (parsed_datetime e)).
    + rewrite Hcmp in H by done. discriminate.
    + simpl in H. destruct (filter_r _ rest) as [rest'|]; [|discriminate].
      simpl in H. injection H as <-. by apply IH.
Qed.

Lemma filter_events_json_date_bound events filters out total :
  Forall (fun e => json_value (parsed_datetime e)) events ->
  given (f_date_from filters) <> None \/ given (f_date_to filters) <> None ->
  filter_events strptime events filters = Ok (JsonFilter out total) ->
  out = [].
Proof.
  intros Hjson Hbound H. unfold filter_events in H.
  assert (Hcat : Forall (fun e => json_value (parsed_datetime e))
                   (category_filter filters events)).
  { apply Forall_forall. intros e He.
    rewrite Forall_forall in Hjson. apply Hjson.
    eapply elem_of_sublist; [exact He | apply category_filter_sublist]. }
  destruct (date_from_filter _ _ _) as [l1|] eqn:H1; simpl in H; [|discriminate].
  destruct (date_to_filter _ _ _) as [l2|] eqn:H2; simpl in H; [|discriminate].
  injection H as <- _.
  assert (Hl2 : l2 = []).
  { unfold date_from_filter, date_to_filter in *.
    destruct (given (f_date_from filters)) as [t1|].
    - destruct (strptime_r strptime t1 _); simpl in H1; [|discriminate].
      apply filter_r_json in H1; [|by intros [] | done]. subst l1.
      destruct (given (f_date_to filters)) as [t2|].
      + destruct (strptime_r strptime t2 _); simpl in H2; [|discriminate].
        by injection H2.
      + by injection H2.
    - injection H1 as <-.
      destruct (given (f_date_to filters)) as [t2|]; [|by destruct Hbound].
      destruct (strptime_r strptime t2 _); simpl in H2; [|discriminate].
      apply filter_r_json in H2; [done | by intros [] | done]. }
  subst l2. unfold search_filter.
  destruct (given (f_search filters)); reflexivity.
Qed.

End FilterFacts.

Lemma filter_events_subsequence_witness :
  [Sample.jazz_json; Sample.jazz_json]
    `sublist_of` [Sample.jazz_json; Sample.market; Sample.jazz_json]
  /\ 2%nat = List.length [Sample.jazz_json; Sample.jazz_json].
Proof.
  apply (filter_events_subsequence Sample.strptime
           [Sample.jazz_json; Sample.market; Sample.jazz_json]
           (mkfilters (Some "music") None None None)).
  reflexivity.
Defined.

(** C8, on the code. A record posted back with its resolved time (a text,
    since the request body is JSON) is not kept by a date bound it lies
    within: ordering it with the bound raises [TypeError], and the request
    fails.  The bound of the example is the closing day of the event. *)
Theorem filter_events_date_bound_raises :
  filter_events Sample.strptime [Sample.jazz_json]
    (mkfilters None None (Some "2026-08-31") None)
  = Raise TypeError.
Proof. reflexivity. Qed.

(** The same record holding a [datetime], as inside the process: an event
    at 20:00 on the closing day is dropped, the bound being that day's
    midnight. *)
Lemma filter_events_date_to_is_midnight :
  filter_events Sample.strptime [Sample.jazz]
    (mkfilters None None (Some "2026-08-31") None)
  = Ok (JsonFilter [] 0)
  /\ filter_events Sample.strptime [Sample.jazz]
       (mkfilters None (Some "2026-08-31") None None)
     = Ok (JsonFilter [Sample.jazz] 1).
Proof. split; reflexivity. Qed.

(** Records without a resolved time are dropped by either bound. *)
Lemma filter_events_unresolved_dropped :
  filter_events Sample.strptime [Sample.market]
    (mkfilters None (Some "2026-08-01") None None)
  = Ok (JsonFilter [] 0)
  /\ filter_events Sample.strptime [Sample.market]
       (mkfilters None None (Some "2026-08-31") None)
     = Ok (JsonFilter [] 0).
Proof. split; reflexivity. Qed.

(** ** Search handler *)

Section SearchFacts.

Variable strftime : datetime -> string -> string.
Variable world : nat -> string -> page.

(** C9, amended. A search request whose city field is present but empty or
    made of white space only gets the single validation error, and no
    page is fetched for it: no aggregation takes place.  The default
    city, Detroit, is taken only when the request has no city field, and
    that request is served as a search for Detroit. *)
Theorem search_events_blank_city (s : string) now log :
  Str.strip s = "" ->
  search_events strftime world (Some s) now log
  = (Ok (JsonError "Please enter a city name"), log)
  /\ search_events strftime world None now log
     = search_events strftime world (Some "Detroit") now log.
Proof.
  intros Hblank. split; [|reflexivity].
  unfold search_events. simpl. by rewrite Hblank.
Qed.

Lemma eventbrite_loop_log urls events log :
  (List.length log + (if urls is [] then 0 else 1)
   <= List.length (snd (eventbrite_loop world urls events log)))%nat.
Proof.
  revert events log. induction urls as [|url rest IH]; intros events log.
  - simpl. lia.
  - cbn [eventbrite_loop]. unfold bind, fetch.
    assert (Hrest : forall evs,
               (List.length log + 1
                <= List.length
                     (snd (eventbrite_loop world rest evs (log ++ [url]))))%nat).
    { intros evs. specialize (IH evs (log ++ [url])).
      rewrite length_app in IH. simpl in IH. lia. }
    destruct (world (List.length log) url) as [event_cards|]; [|apply Hrest].
    destruct (events ++ extract 8 event_cards); [apply Hrest |].
    unfold ret. simpl. rewrite length_app. simpl. lia.
Qed.

(** Aggregation queries the first source at least once: a served search
    leaves a longer request log. *)
Lemma search_events_fetches (s : string) now log :
  Str.strip s <> "" ->
  (List.length log
   < List.length (snd (search_events strftime world (Some s) now log)))%nat.
Proof.
  intros Hcity. unfold search_events. simpl.
  destruct (Str.strip s) as [|a city] eqn:Hs; [done |]. simpl.
  unfold bind, get_events_from_multiple_sources, collect, bind.
  pose proof (eventbrite_loop_log (eventbrite_urls (String a city)) [] log)
    as Hlog.
  unfold scrape_eventbrite_events.
  destruct (eventbrite_loop _ _ _ log) as [eb log1]. simpl in Hlog.
  destruct (_ <? 5)%nat.
  - unfold scrape_meetup_events, bind, fetch.
    destruct (world (List.length log1) _); unfold ret; simpl;
      rewrite length_app; simpl; lia.
  - unfold ret. simpl. lia.
Qed.

End SearchFacts.

(** C9, as stated, fails: the default value is given to a request that
    carries no city text at all, and that request is not refused but
    aggregated (here with both sources down, four fetches and the demo
    events); a blank text is refused, never replaced by the default. *)
Lemma search_events_default_city_is_served :
  fst (search_events Sample.strftime Sample.offline None Sample.now [])
  <> Ok (JsonError "Please enter a city name")
  /\ snd (search_events Sample.strftime Sample.offline None Sample.now [])
     = [ "https://www.eventbrite.com/d/detroit/events/";
         "https://www.eventbrite.com/d/detroit/events/";
         "https://www.eventbrite.com/e/search?q=Detroit";
         "https://www.meetup.com/find/?keywords=&location=Detroit" ]
  /\ search_events Sample.strftime Sample.offline (Some "") Sample.now []
     = (Ok (JsonError "Please enter a city name"), []).
Proof. vm_compute. repeat split; discriminate. Qed.

Lemma search_events_blank_city_witness :
  search_events Sample.strftime Sample.offline (Some "   ") Sample.now []
  = (Ok (JsonError "Please enter a city name"), [])
  /\ search_events Sample.strftime Sample.offline None Sample.now []
     = search_events Sample.strftime Sample.offline (Some "Detroit")
         Sample.now [].
Proof.
  apply (search_events_blank_city Sample.strftime Sample.offline "   ").
  reflexivity.
Defined.

(** ** Date/time parser *)

Lemma lex_Gt c k : c = Gt -> lex c k = Gt.
Proof. by intros ->. Qed.

Lemma dt_ltb_later_year a b : year b < year a -> dt_ltb a b = false.
Proof.
  intros H. unfold dt_ltb, dt_compare.
  rewrite lex_Gt; [done | by apply Z.compare_gt_iff].
Qed.

Lemma replace_year_fields d y r :
  replace_year d y = Some r ->
  r = mkdt y (month d) (day d) (hour d) (minute d) (second d) (microsecond d).
Proof.
  unfold replace_year. destruct (valid_datetime _); [|discriminate].
  by intros [= <-].
Qed.

Section ParserFacts.

Variable strptime : string -> string -> option datetime.
Variable fuzzy_parse : string -> option parsed.
Variable clock : nat -> datetime.

Lemma handle_past_not_before parsed_date now r :
  handle_past parsed_date now = Some r -> dt_ltb r now = false.
Proof.
  unfold handle_past. destruct (dt_ltb parsed_date now) eqn:Hlt.
  - intros H. apply replace_year_fields in H. subst r.
    apply dt_ltb_later_year. simpl. lia.
  - by intros [= <-].
Qed.

Lemma fuzzy_fallback_not_before text t r t' :
  fuzzy_fallback fuzzy_parse clock text t = (Some r, t') ->
  t' = S t /\ dt_ltb r (clock t) = false.
Proof.
  unfold fuzzy_fallback.
  destruct (fuzzy_parse text) as [[d | d off]|]; try discriminate.
  intros [= H <-]. split; [done | by eapply handle_past_not_before].
Qed.

Lemma try_patterns_not_before ps text t r t' :
  try_patterns strptime fuzzy_parse clock ps text t = (Some r, t') ->
  exists k, (t <= k)%nat /\ t' = S k /\ dt_ltb r (clock k) = false.
Proof.
  revert t. induction ps as [|pattern rest IH]; intros t; simpl.
  - intros H. apply fuzzy_fallback_not_before in H as [-> H].
    by exists t.
  - destruct (strptime text pattern) as [d|]; [|apply IH].
    destruct (handle_past d (clock t)) as [r0|] eqn:Hpast.
    + intros [= <- <-]. exists t.
      split; [lia | split; [done | by eapply handle_past_not_before]].
    + intros H. apply IH in H as (k & Hk & -> & Hlt).
      exists k. split; [lia | done].
Qed.

(** C6. A resolved time returned by the date parser is never strictly
    before the current moment: it is not before the reading of the clock
    it was compared with, which is the last reading the call made. *)
Theorem parse_event_datetime_not_past date_string city t r t' :
  parse_event_datetime strptime fuzzy_parse clock date_string city t
  = (Some r, t') ->
  exists k, (t <= k)%nat /\ t' = S k /\ dt_ltb r (clock k) = false.
Proof.
  unfold parse_event_datetime. destruct (_ || _); [discriminate |].
  apply try_patterns_not_before.
Qed.

Lemma try_patterns_skip before rest text t :
  Forall (fun q => strptime text q = None) before ->
  try_patterns strptime fuzzy_parse clock (before ++ rest) text t
  = try_patterns strptime fuzzy_parse clock rest text t.
Proof.
  induction 1 as [|q before Hq _ IH]; simpl; [done |].
  by rewrite Hq.
Qed.

Lemma try_patterns_parses_to_naive text d t :
  parses_to_naive strptime fuzzy_parse text d ->
  forall r, handle_past d (clock t) = Some r ->
  try_patterns strptime fuzzy_parse clock patterns text t = (Some r, S t).
Proof.
  intros [(before & pattern & after & -> & Hnone & Hd) | [Hnone Hd]] r Hr.
  - rewrite try_patterns_skip by done. simpl. by rewrite Hd, Hr.
  - rewrite <- (app_nil_r patterns), try_patterns_skip by done.
    simpl. unfold fuzzy_fallback. by rewrite Hd, Hr.
Qed.

(** C1, amended. A text that parses to a naive (timezone-less) time
    strictly before the current moment resolves to the same month, day and
    time of day in the year after the current one, whenever that date
    exists: the year is set to the current year plus one, which is the
    parsed year plus one exactly when the text was dated in the current
    year.  A text that only the fuzzy parser reads, as a time with a time
    zone, is not covered, nor is a date that does not exist next year. *)
Theorem parse_event_datetime_past_to_next_year date_string city d t :
  let now := clock t in
  let r := mkdt (year now + 1) (month d) (day d)
                (hour d) (minute d) (second d) (microsecond d) in
  date_string <> "" -> date_string <> "Date/Time TBA" ->
  parses_to_naive strptime fuzzy_parse date_string d ->
  dt_ltb d now = true ->
  valid_datetime r = true ->
  parse_event_datetime strptime fuzzy_parse clock date_string city t
  = (Some r, S t)
  /\ (year r = year d + 1 <-> year d = year now).
Proof.
  intros now r Hne Htba Hparse Hpast Hvalid. split; [|simpl; lia].
  unfold parse_event_datetime.
  assert (Str.is_empty date_string = false) as -> by by destruct date_string.
  assert (String.eqb date_string "Date/Time TBA" = false) as ->
      by by apply String.eqb_neq.
  simpl. apply (try_patterns_parses_to_naive _ d); [done |].
  unfold handle_past. fold now. rewrite Hpast.
  unfold replace_year. fold r. by rewrite Hvalid.
Qed.

(** A text that parses to a naive (timezone-less) time not before the
    current moment resolves to that time.  A text that only the fuzzy
    parser reads, as a time with a time zone, is not covered. *)
Lemma parse_event_datetime_future date_string city d t :
  date_string <> "" -> date_string <> "Date/Time TBA" ->
  parses_to_naive strptime fuzzy_parse date_string d ->
  dt_ltb d (clock t) = false ->
  parse_event_datetime strptime fuzzy_parse clock date_string city t
  = (Some d, S t).
Proof.
  intros Hne Htba Hparse Hfut. unfold parse_event_datetime.
  assert (Str.is_empty date_string = false) as -> by by destruct date_string.
  assert (String.eqb date_string "Date/Time TBA" = false) as ->
      by by apply String.eqb_neq.
  simpl. apply (try_patterns_parses_to_naive _ d); [done |].
  unfold handle_past. by rewrite Hfut.
Qed.

(** The empty text and the "Date/Time TBA" sentinel are unresolved, and the
    clock is not read for them. *)
Lemma parse_event_datetime_unknown city t :
  parse_event_datetime strptime fuzzy_parse clock "" city t = (None, t)
  /\ parse_event_datetime strptime fuzzy_parse clock "Date/Time TBA" city t
     = (None, t).
Proof. split; reflexivity. Qed.

End ParserFacts.

Lemma sample_parses_iso y m d h mi s text :
  Sample.strptime text "%Y-%m-%d %H:%M:%S" = Some (mkdt y m d h mi s 0) ->
  Sample.strptime text "%A, %B %d, %Y at %I:%M %p" = None ->
  parses_to_naive Sample.strptime Sample.no_fuzzy text (mkdt y m d h mi s 0).
Proof.
  intros Hiso Hother. left.
  exists [ "%A, %B %d, %Y at %I:%M %p"; "%B %d, %Y at %I:%M %p";
           "%m/%d/%Y at %I:%M %p" ],
         "%Y-%m-%d %H:%M:%S", [ "%A, %b %d at %I:%M %p" ].
  split; [reflexivity | split; [| exact Hiso]].
  repeat constructor; exact Hother.
Qed.

(** C1, as stated, fails: a text dated 2020, read in 2026, does not resolve
    to the same day of 2021 but to that day of 2027. *)
Lemma parse_event_datetime_old_year_not_plus_one :
  parses_to_naive Sample.strptime Sample.no_fuzzy "2020-08-31 14:00:00"
    (mkdt 2020 8 31 14 0 0 0)
  /\ dt_ltb (mkdt 2020 8 31 14 0 0 0) Sample.now = true
  /\ parse_event_datetime Sample.strptime Sample.no_fuzzy
       (Sample.clock_at Sample.now) "2020-08-31 14:00:00" "Detroit" 0
     = (Some (mkdt 2027 8 31 14 0 0 0), 1%nat)
  /\ fst (parse_event_datetime Sample.strptime Sample.no_fuzzy
            (Sample.clock_at Sample.now) "2020-08-31 14:00:00" "Detroit" 0)
     <> Some (mkdt (2020 + 1) 8 31 14 0 0 0).
Proof.
  split; [by apply sample_parses_iso |].
  vm_compute. repeat split; discriminate.
Qed.

Lemma parse_event_datetime_past_to_next_year_witness :
  parse_event_datetime Sample.strptime Sample.no_fuzzy
    (Sample.clock_at Sample.now) "2026-08-31 14:00:00" "Detroit" 0
  = (Some (mkdt 2027 8 31 14 0 0 0), 1%nat)
  /\ (2027 = 2026 + 1 <-> 2026 = 2026).
Proof.
  apply (parse_event_datetime_past_to_next_year Sample.strptime
           Sample.no_fuzzy (Sample.clock_at Sample.now)
           "2026-08-31 14:00:00" "Detroit" (mkdt 2026 8 31 14 0 0 0) 0%nat).
  - discriminate.
  - discriminate.
  - by apply sample_parses_iso.
  - reflexivity.
  - reflexivity.
Defined.

Lemma parse_event_datetime_not_past_witness :
  exists k, (0 <= k)%nat /\ 1%nat = S k
            /\ dt_ltb (mkdt 2027 8 31 14 0 0 0) (Sample.clock_at Sample.now k)
               = false.
Proof.
  apply (parse_event_datetime_not_past Sample.strptime Sample.no_fuzzy
           (Sample.clock_at Sample.now) "2020-08-31 14:00:00" "Detroit" 0%nat).
  reflexivity.
Defined.

(** A 29 February read in a year whose successor is not a leap year is left
    unresolved: [replace] raises in every attempt that parses it. *)
Lemma parse_event_datetime_leap_day :
  parse_event_datetime Sample.strptime
    (fun text => Sample.strptime text "%Y-%m-%d %H:%M:%S" ≫= (fun d => Some (Naive d)))
    (Sample.clock_at Sample.now) "2024-02-29 10:00:00" "Detroit" 0
  = (None, 2%nat).
Proof. reflexivity. Qed.

(** ** Calendar arithmetic *)

Lemma dt_ltb_spec a b :
  dt_ltb a b = true <-> date_lt a b \/ (same_date a b /\ tod_lt a b).
Proof.
  unfold dt_ltb, dt_compare, lex, date_lt, same_date, tod_lt.
  repeat match goal with
         | |- context [?x ?= ?y] => destruct (Z.compare_spec x y)
         end;
    (split; intros Hx; [try discriminate; lia | try reflexivity; exfalso; lia]).
Qed.

Lemma valid_datetime_spec d :
  valid_datetime d = true <->
  1 <= year d <= MAXYEAR /\ 1 <= month d <= 12
  /\ 1 <= day d <= days_in_month (year d) (month d)
  /\ 0 <= hour d < 24 /\ 0 <= minute d < 60 /\ 0 <= second d < 60
  /\ 0 <= microsecond d < 1000000.
Proof.
  unfold valid_datetime. rewrite !andb_true_iff, !Z.leb_le, !Z.ltb_lt. lia.
Qed.

Lemma advance_day_spec d d' :
  advance_day d = Some d' ->
  date_lt d d' /\ year d' <= year d + 1
  /\ hour d' = hour d /\ minute d' = minute d /\ second d' = second d
  /\ microsecond d' = microsecond d.
Proof.
  unfold advance_day, date_lt.
  destruct (day d <? _) eqn:H1; [| destruct (month d <? 12) eqn:H2;
    [| destruct (year d <? MAXYEAR) eqn:H3; [| discriminate]]];
    intros [= <-]; simpl; rewrite ?Z.ltb_lt in *; lia.
Qed.

Lemma date_lt_trans a b c : date_lt a b -> date_lt b c -> date_lt a c.
Proof. unfold date_lt. lia. Qed.

Lemma add_days_spec n d d' :
  add_days n d = Some d' ->
  (n = O /\ d' = d \/ n <> O /\ date_lt d d')
  /\ hour d' = hour d /\ minute d' = minute d /\ second d' = second d
  /\ microsecond d' = microsecond d.
Proof.
  revert d. induction n as [|n IH]; intros d; simpl.
  - intros [= <-]. split; [by left | done].
  - destruct (advance_day d) as [d1|] eqn:Hstep; [|discriminate].
    intros H. apply IH in H as [Hn Htod].
    apply advance_day_spec in Hstep as (Hlt & _ & Hh & Hm & Hs & Hu).
    split; [right; split; [done |] | by rewrite <- Hh, <- Hm, <- Hs, <- Hu].
    destruct Hn as [[_ ->] | [_ Hlt']]; [done | by eapply date_lt_trans].
Qed.

Lemma add_days_plus n k d :
  add_days (n + k) d = add_days n d ≫= add_days k.
Proof.
  revert d. induction n as [|n IH]; intros d; simpl; [done |].
  destruct (advance_day d); simpl; [apply IH | done].
Qed.

Lemma add_days_mono n1 n2 d a b :
  (n1 < n2)%nat -> add_days n1 d = Some a -> add_days n2 d = Some b ->
  date_lt a b.
Proof.
  intros Hlt Ha Hb.
  replace n2 with (n1 + (n2 - n1))%nat in Hb by lia.
  rewrite add_days_plus, Ha in Hb. simpl in Hb.
  apply add_days_spec in Hb as [[[H0 _] | [_ H]] _]; [lia | done].
Qed.

(** Room left before 9999-12-31 for [n] more days. *)
Lemma add_days_total n d :
  (n <= 30)%nat ->
  year d < MAXYEAR
  \/ (year d <= MAXYEAR /\ month d = 1 /\ day d + Z.of_nat n <= 31) ->
  exists d', add_days n d = Some d'.
Proof.
  revert d. induction n as [|n IH]; intros d Hn Hroom; simpl; [by eexists |].
  unfold advance_day, MAXYEAR in *.
  destruct (day d <? _) eqn:H1; [| destruct (month d <? 12) eqn:H2;
    [| destruct (year d <? 9999) eqn:H3]];
    rewrite ?Z.ltb_lt, ?Z.ltb_ge in *.
  - apply IH; [lia |]. simpl. lia.
  - apply IH; [lia |]. simpl.
    destruct Hroom as [|(? & Hm & ?)]; [lia |].
    rewrite Hm in H1. unfold days_in_month in H1. simpl in H1. lia.
  - apply IH; [lia |]. simpl. lia.
  - lia.
Qed.

Lemma dt_add_inv d delta r :
  dt_add d delta = Some r ->
  let us := microsecond d + td_microseconds delta in
  let s := hour d * 3600 + minute d * 60 + second d
           + td_seconds delta + us / 1000000 in
  exists d', add_days (Z.to_nat (td_days delta + s / 86400)) d = Some d'
             /\ r = mkdt (year d') (month d') (day d')
                         (s mod 86400 / 3600) (s mod 86400 mod 3600 / 60)
                         (s mod 86400 mod 60) (us mod 1000000).
Proof.
  intros H. cbv zeta. unfold dt_add in H.
  destruct (add_days _ d) as [d'|]; [|discriminate].
  injection H as <-. by exists d'.
Qed.

(** Adding a longer timedelta gives a later datetime. *)
Lemma dt_add_lt d delta1 delta2 r1 r2 :
  0 <= hour d -> 0 <= minute d -> 0 <= second d -> 0 <= microsecond d ->
  td_normal delta1 -> td_normal delta2 ->
  td_total delta1 < td_total delta2 ->
  dt_add d delta1 = Some r1 -> dt_add d delta2 = Some r2 ->
  dt_lt r1 r2.
Proof.
  intros Hh Hm Hs Hu (Hd1 & Hs1 & Hu1) (Hd2 & Hs2 & Hu2) Hlt H1 H2.
  unfold td_total in Hlt.
  apply dt_add_inv in H1 as (a & Ha & ->).
  apply dt_add_inv in H2 as (b & Hb & ->).
  apply dt_ltb_spec. unfold date_lt, same_date, tod_lt. simpl.
  set (u1 := microsecond d + td_microseconds delta1) in *.
  set (u2 := microsecond d + td_microseconds delta2) in *.
  set (s1 := hour d * 3600 + minute d * 60 + second d
             + td_seconds delta1 + u1 / 1000000) in *.
  set (s2 := hour d * 3600 + minute d * 60 + second d
             + td_seconds delta2 + u2 / 1000000) in *.
  assert (Hs1' : 0 <= s1) by (subst s1 u1; Z.div_mod_to_equations; lia).
  assert (Hs2' : 0 <= s2) by (subst s2 u2; Z.div_mod_to_equations; lia).
  assert (Hlex : td_days delta1 + s1 / 86400 < td_days delta2 + s2 / 86400
                 \/ (td_days delta1 + s1 / 86400 = td_days delta2 + s2 / 86400
                     /\ (s1 mod 86400 < s2 mod 86400
                         \/ (s1 mod 86400 = s2 mod 86400
                             /\ u1 mod 1000000 < u2 mod 1000000)))).
  { subst s1 s2 u1 u2. Z.div_mod_to_equations. lia. }
  destruct Hlex as [Hdays | [Hdays Htod]].
  - left. eapply (add_days_mono _ _ d a b) in Ha; [exact Ha | | exact Hb].
    Z.div_mod_to_equations. lia.
  - right. rewrite Hdays, Hb in Ha. injection Ha as ->.
    split; [done |].
    clearbody s1 s2 u1 u2. Z.div_mod_to_equations. lia.
Qed.

Lemma dt_add_total d delta n :
  0 <= hour d -> 0 <= minute d -> 0 <= second d -> 0 <= microsecond d ->
  td_normal delta ->
  (n <= 30)%nat ->
  td_days delta
  + (hour d * 3600 + minute d * 60 + second d + td_seconds delta
     + (microsecond d + td_microseconds delta) / 1000000) / 86400
  <= Z.of_nat n ->
  year d < MAXYEAR
  \/ (year d <= MAXYEAR /\ month d = 1 /\ day d + Z.of_nat n <= 31) ->
  exists r, dt_add d delta = Some r.
Proof.
  intros Hh Hm Hs Hu (Hd1 & Hs1 & Hu1) Hn Hdays Hroom. unfold dt_add.
  destruct (add_days_total
              (Z.to_nat (td_days delta
                 + (hour d * 3600 + minute d * 60 + second d + td_seconds delta
                    + (microsecond d + td_microseconds delta) / 1000000)
                   / 86400)) d) as [d' ->]; [lia | lia | by eexists].
Qed.

(** [now + timedelta(days=1)] is the next calendar day at the same time. *)
Lemma dt_add_one_day now :
  valid_datetime now = true ->
  dt_add now (make_timedelta 1 0 0) = advance_day now.
Proof.
  intros Hvalid. apply valid_datetime_spec in Hvalid.
  change (make_timedelta 1 0 0) with (mktd 1 0 0).
  unfold dt_add. simpl td_days. simpl td_seconds. simpl td_microseconds.
  assert (Hus : (microsecond now + 0) / 1000000 = 0)
    by (Z.div_mod_to_equations; lia).
  assert (Hmod : (microsecond now + 0) mod 1000000 = microsecond now)
    by (Z.div_mod_to_equations; lia).
  rewrite Hus, Hmod.
  set (s := hour now * 3600 + minute now * 60 + second now + 0 + 0).
  assert (Hs : s / 86400 = 0) by (subst s; Z.div_mod_to_equations; lia).
  assert (Hh : s mod 86400 / 3600 = hour now)
    by (subst s; Z.div_mod_to_equations; lia).
  assert (Hm : s mod 86400 mod 3600 / 60 = minute now)
    by (subst s; Z.div_mod_to_equations; lia).
  assert (Hsec : s mod 86400 mod 60 = second now)
    by (subst s; Z.div_mod_to_equations; lia).
  rewrite Hs, Hh, Hm, Hsec. simpl.
  destruct (advance_day now) as [d'|] eqn:Hstep; [|done].
  apply advance_day_spec in Hstep as (_ & _ & <- & <- & <- & <-).
  by destruct d'.
Qed.

Lemma make_timedelta_normal days hours minutes :
  0 <= hours < 24 -> 0 <= minutes < 60 ->
  make_timedelta days hours minutes
  = mktd days (hours * 3600 + minutes * 60) 0.
Proof.
  intros Hh Hm. unfold make_timedelta. f_equal; Z.div_mod_to_equations; lia.
Qed.

Lemma advance_day_room d :
  year d < MAXYEAR ->
  exists d', advance_day d = Some d'
             /\ (year d' < MAXYEAR
                 \/ (year d' <= MAXYEAR /\ month d' = 1 /\ day d' = 1)).
Proof.
  intros Hy. unfold advance_day.
  destruct (day d <? _); [| destruct (month d <? 12);
    [| destruct (year d <? MAXYEAR) eqn:H3; [| rewrite Z.ltb_ge in H3; lia]]];
    eexists; (split; [reflexivity | simpl; lia]).
Qed.

(** ** Demo events *)

Section DemoFacts.

(** [base_date], the day after a valid [now] that leaves a year of room. *)
Variable base : datetime.
Hypothesis base_hour : 0 <= hour base < 24.
Hypothesis base_minute : 0 <= minute base < 60.
Hypothesis base_second : 0 <= second base < 60.
Hypothesis base_microsecond : 0 <= microsecond base < 1000000.
Hypothesis base_room :
  year base < MAXYEAR
  \/ (year base <= MAXYEAR /\ month base = 1 /\ day base = 1).

Lemma demo_add_total days hours minutes :
  0 <= days <= 5 -> 0 <= hours < 24 -> 0 <= minutes < 60 ->
  exists r, add base (make_timedelta days hours minutes) = Ok r.
Proof.
  intros Hd Hh Hm. rewrite make_timedelta_normal by done.
  destruct (dt_add_total base (mktd days (hours * 3600 + minutes * 60) 0)
              6%nat) as [r Hr].
  - lia.
  - lia.
  - lia.
  - lia.
  - unfold td_normal. simpl. lia.
  - lia.
  - simpl. Z.div_mod_to_equations. lia.
  - lia.
  - exists r. unfold add. by rewrite Hr.
Qed.

Lemma demo_add_lt k1 h1 m1 k2 h2 m2 r1 r2 :
  0 <= k1 -> 0 <= h1 < 24 -> 0 <= m1 < 60 ->
  0 <= k2 -> 0 <= h2 < 24 -> 0 <= m2 < 60 ->
  (k1 * 24 + h1) * 60 + m1 < (k2 * 24 + h2) * 60 + m2 ->
  add base (make_timedelta k1 h1 m1) = Ok r1 ->
  add base (make_timedelta k2 h2 m2) = Ok r2 ->
  dt_lt r1 r2.
Proof.
  intros Hk1 Hh1 Hm1 Hk2 Hh2 Hm2 Hlt. unfold add.
  rewrite !make_timedelta_normal by done.
  destruct (dt_add base (mktd k1 _ 0)) as [a|] eqn:Ha; [|discriminate].
  destruct (dt_add base (mktd k2 _ 0)) as [b|] eqn:Hb; [|discriminate].
  intros [= <-] [= <-].
  eapply (dt_add_lt base _ _ a b); try exact Ha; try exact Hb; try lia.
  - unfold td_normal. simpl. lia.
  - unfold td_normal. simpl. lia.
  - unfold td_total. simpl. lia.
Qed.

End DemoFacts.

Lemma demo_events_ok strftime city now :
  valid_datetime now = true -> year now < MAXYEAR ->
  exists r t1 t2 t3 t4 t5,
    demo_events strftime city now = Ok r
    /\ map title r
       = [ "Community Art Festival - " +:+ city;
           "Tech Innovation Meetup - " +:+ city;
           "Weekend Farmers Market - " +:+ city;
           "Live Jazz Night - " +:+ city;
           "Business Networking Breakfast - " +:+ city ]
    /\ map category r = ["arts"; "technology"; "food"; "music"; "networking"]
    /\ map parsed_datetime r
       = [PDatetime t1; PDatetime t2; PDatetime t3; PDatetime t4; PDatetime t5]
    /\ dt_lt t1 t3 /\ dt_lt t3 t2 /\ dt_lt t2 t4 /\ dt_lt t4 t5.
Proof.
  intros Hvalid Hyear.
  destruct (advance_day_room now Hyear) as (base & Hbase & Hroom).
  assert (Hb : add now (make_timedelta 1 0 0) = Ok base).
  { unfold add. by rewrite dt_add_one_day, Hbase. }
  apply valid_datetime_spec in Hvalid as (_ & _ & _ & Hh & Hm & Hs & Hu).
  apply advance_day_spec in Hbase as (_ & _ & Eh & Em & Es & Eu).
  rewrite <- Eh in Hh. rewrite <- Em in Hm. rewrite <- Es in Hs.
  rewrite <- Eu in Hu.
  pose proof (demo_add_total base Hh Hm Hs Hu Hroom) as Htotal.
  pose proof (demo_add_lt base Hh Hm Hs Hu) as Hlt.
  destruct (Htotal 1 0 0) as [d1 Hd1]; [lia.. |].
  destruct (Htotal 1 14 0) as [p1 Hp1]; [lia.. |].
  destruct (Htotal 3 0 0) as [d2 Hd2]; [lia.. |].
  destruct (Htotal 3 18 0) as [p2 Hp2]; [lia.. |].
  destruct (Htotal 2 0 0) as [d3 Hd3]; [lia.. |].
  destruct (Htotal 2 8 0) as [p3 Hp3]; [lia.. |].
  destruct (Htotal 4 0 0) as [d4 Hd4]; [lia.. |].
  destruct (Htotal 4 20 0) as [p4 Hp4]; [lia.. |].
  destruct (Htotal 5 0 0) as [d5 Hd5]; [lia.. |].
  destruct (Htotal 5 7 30) as [p5 Hp5]; [lia.. |].
  eexists _, p1, p2, p3, p4, p5. unfold demo_events.
  rewrite Hb. cbn [rbind].
  rewrite Hd1, Hp1, Hd2, Hp2, Hd3, Hp3, Hd4, Hp4, Hd5, Hp5. cbn [rbind].
  split; [reflexivity |].
  split; [reflexivity |]. split; [reflexivity |]. split; [reflexivity |].
  split; [eapply (Hlt 1 14 0 2 8 0); [lia.. | done | done] |].
  split; [eapply (Hlt 2 8 0 3 18 0); [lia.. | done | done] |].
  split; [eapply (Hlt 3 18 0 4 20 0); [lia.. | done | done] |].
  eapply (Hlt 4 20 0 5 7 30); [lia.. | done | done].
Qed.

(** ** Deduplication *)

Lemma unique_loop_sublist events seen :
  unique_loop events seen `sublist_of` events.
Proof.
  revert seen. induction events as [|e rest IH]; intros seen; simpl.
  - constructor.
  - destruct (decide _); by constructor.
Qed.

Lemma unique_loop_unseen events seen e :
  e ∈ unique_loop events seen -> title_key e ∉ seen.
Proof.
  revert seen. induction events as [|x rest IH]; intros seen; simpl.
  - by intros ?%elem_of_nil.
  - destruct (decide (title_key x ∈ seen)) as [|Hx]; [apply IH |].
    intros [-> | Hin%IH]%elem_of_cons; [done | set_solver].
Qed.

Lemma unique_loop_NoDup events seen :
  NoDup (title_key <$> unique_loop events seen).
Proof.
  revert seen. induction events as [|x rest IH]; intros seen; simpl.
  - constructor.
  - destruct (decide (title_key x ∈ seen)) as [|Hx]; [apply IH |].
    rewrite fmap_cons. constructor; [| apply IH].
    intros (e & Heq & Hin%unique_loop_unseen)%list_elem_of_fmap.
    set_solver.
Qed.

Lemma unique_loop_first events seen i e :
  events !! i = Some e -> title_key e ∉ seen ->
  exists j e', first_occurrence events j e'
               /\ title_key e' = title_key e
               /\ e' ∈ unique_loop events seen.
Proof.
  revert seen i. induction events as [|x rest IH]; intros seen i Hi He.
  - by rewrite lookup_nil in Hi.
  - simpl. destruct (decide (title_key x = title_key e)) as [Hxe | Hxe].
    + exists O, x. rewrite decide_False by by rewrite Hxe.
      split; [split; [done | intros; lia] | split; [done | by left]].
    + destruct i as [|i]; [simpl in Hi; congruence |]. simpl in Hi.
      assert (Hshift : forall seen', title_key e ∉ seen' ->
                exists j e', first_occurrence (x :: rest) j e'
                             /\ title_key e' = title_key e
                             /\ e' ∈ unique_loop rest seen').
      { intros seen' He'.
        destruct (IH seen' i Hi He') as (j & e' & [Hj Hfirst] & Hkey & Hin).
        exists (S j), e'. split; [split; [done |] | done].
        intros [|k] e'' Hk Hlook; simpl in Hlook.
        - injection Hlook as <-. by rewrite Hkey.
        - apply (Hfirst k); [lia | done]. }
      destruct (decide (title_key x ∈ seen)).
      * by apply Hshift.
      * assert (Hnew : title_key e ∉ {[title_key x]} ∪ seen).
        { intros [Heq%elem_of_singleton | Hin]%elem_of_union; congruence. }
        destruct (Hshift _ Hnew) as (j & e' & Hj & Hkey & Hin).
        exists j, e'. split; [done | split; [done | by right]].
Qed.

Lemma unique_loop_nonempty e rest :
  unique_loop (e :: rest) ∅ <> [].
Proof. simpl. by rewrite decide_False by set_solver. Qed.

(** ** Sources *)

Section SourceFacts.

Variable world : nat -> string -> page.

Lemma extract_length n event_cards :
  (List.length (extract n event_cards) <= n)%nat.
Proof.
  unfold extract.
  assert (Homap : forall l : list card,
             (List.length (omap id l) <= List.length l)%nat).
  { induction l as [|[e|] l IH]; cbn in *; lia. }
  etransitivity; [apply Homap |]. rewrite length_take. lia.
Qed.

Lemma eventbrite_loop_length urls log :
  (List.length (fst (eventbrite_loop world urls [] log)) <= 8)%nat.
Proof.
  revert log. induction urls as [|url rest IH]; intros log.
  - simpl. lia.
  - cbn [eventbrite_loop]. unfold bind, fetch.
    destruct (world (List.length log) url) as [event_cards|]; [|apply IH].
    rewrite app_nil_l.
    destruct (extract 8 event_cards) as [|e l] eqn:Hcards; [apply IH |].
    unfold ret. simpl fst. rewrite <- Hcards. apply extract_length.
Qed.

Lemma scrape_meetup_events_length city log :
  (List.length (fst (scrape_meetup_events world city log)) <= 6)%nat.
Proof.
  unfold scrape_meetup_events, bind, fetch.
  destruct (world _ _); unfold ret; simpl; [apply extract_length | lia].
Qed.

(** What the aggregator concatenates is source A, then source B. *)
Lemma collect_sources city log :
  fst (collect world city log) = sources_in_order world city log.
Proof.
  unfold collect, sources_in_order, bind.
  destruct (scrape_eventbrite_events world city log) as [a log1].
  assert (Ha : match a with [] => [] | _ => [] ++ a end = a) by by destruct a.
  rewrite Ha.
  destruct (List.length a <? 5)%nat; [| unfold ret; simpl; by rewrite app_nil_r].
  destruct (scrape_meetup_events world city log1) as [b log2].
  unfold ret. simpl. destruct b; [by rewrite app_nil_r | done].
Qed.

Lemma sources_in_order_length city log :
  (List.length (sources_in_order world city log) <= 10)%nat.
Proof.
  unfold sources_in_order, scrape_eventbrite_events.
  pose proof (eventbrite_loop_length (eventbrite_urls city) log) as Ha.
  destruct (eventbrite_loop _ _ _ log) as [a log1]. simpl in Ha.
  rewrite length_app.
  destruct (List.length a <? 5)%nat eqn:Hlt.
  - apply Nat.ltb_lt in Hlt.
    pose proof (scrape_meetup_events_length city log1). lia.
  - simpl. lia.
Qed.

End SourceFacts.

(** ** Aggregator *)

Lemma title_key_head c s e :
  title e = String c s -> Str.is_space (Str.lower_char c) = false ->
  exists s', title_key e = String (Str.lower_char c) s'.
Proof.
  intros Ht Hc. unfold title_key, Str.strip. rewrite Ht.
  cbn [Str.lower Str.lstrip]. rewrite Hc. cbn [Str.rstrip].
  destruct (Str.rstrip _); rewrite ?Hc; by eexists.
Qed.

Lemma demo_titles_NoDup city (r : list event) :
  map title r
  = [ "Community Art Festival - " +:+ city;
      "Tech Innovation Meetup - " +:+ city;
      "Weekend Farmers Market - " +:+ city;
      "Live Jazz Night - " +:+ city;
      "Business Networking Breakfast - " +:+ city ] ->
  List.length r = 5%nat /\ NoDup (title_key <$> r).
Proof.
  intros Ht.
  destruct r as [|e1 [|e2 [|e3 [|e4 [|e5 [|e6 r]]]]]]; try discriminate.
  injection Ht as H1 H2 H3 H4 H5. split; [done |].
  destruct (title_key_head "C" ("ommunity Art Festival - " +:+ city) e1 H1)
    as [s1 K1]; [done |].
  destruct (title_key_head "T" ("ech Innovation Meetup - " +:+ city) e2 H2)
    as [s2 K2]; [done |].
  destruct (title_key_head "W" ("eekend Farmers Market - " +:+ city) e3 H3)
    as [s3 K3]; [done |].
  destruct (title_key_head "L" ("ive Jazz Night - " +:+ city) e4 H4)
    as [s4 K4]; [done |].
  destruct (title_key_head "B" ("usiness Networking Breakfast - " +:+ city)
              e5 H5) as [s5 K5]; [done |].
  rewrite !fmap_cons, K1, K2, K3, K4, K5.
  repeat (constructor;
          [ rewrite ?elem_of_cons, elem_of_nil; intros Hin;
            repeat (destruct Hin as [Hin | Hin]; [discriminate |]); done |]).
  constructor.
Qed.

Lemma demo_events_inv strftime city now r :
  demo_events strftime city now = Ok r ->
  map title r
  = [ "Community Art Festival - " +:+ city;
      "Tech Innovation Meetup - " +:+ city;
      "Weekend Farmers Market - " +:+ city;
      "Live Jazz Night - " +:+ city;
      "Business Networking Breakfast - " +:+ city ].
Proof.
  unfold demo_events.
  repeat match goal with
         | |- context [add ?a ?b] =>
             destruct (add a b) as [?|]; cbn [rbind]; [|discriminate]
         end.
  by intros [= <-].
Qed.

Section AggregatorFacts.

Variable strftime : datetime -> string -> string.
Variable world : nat -> string -> page.

(** C4. Whatever the sources answer, the list the aggregator returns has
    at most 10 records and no two of them have the same title after
    lowercasing and trimming; when the sources gave anything, it is a
    subsequence of their concatenation (source A, then source B) that
    contains, for every record of the concatenation, the first record
    with that normalized title. *)
Theorem aggregate_deduplicated city now log r log' :
  get_events_from_multiple_sources strftime world city now log
  = (Ok r, log') ->
  let all_events := sources_in_order world city log in
  (List.length r <= 10)%nat
  /\ NoDup (title_key <$> r)
  /\ (all_events <> [] ->
      r `sublist_of` all_events
      /\ forall e, e ∈ all_events ->
           exists j e', first_occurrence all_events j e'
                        /\ title_key e' = title_key e
                        /\ e' ∈ r).
Proof.
  unfold get_events_from_multiple_sources, bind, ret.
  pose proof (collect_sources world city log) as Hall.
  pose proof (sources_in_order_length world city log) as Hlen.
  destruct (collect world city log) as [all_events log1]. simpl in Hall.
  rewrite <- Hall in Hlen |- *. clear Hall. intros [= Hfinish _]. cbv zeta.
  unfold finish in Hfinish.
  pose proof (unique_loop_sublist all_events ∅) as Hsub.
  pose proof (unique_loop_NoDup all_events ∅) as Hnodup.
  destruct (unique_loop all_events ∅) as [|u us] eqn:Hu.
  - destruct (demo_events strftime city now) as [demo|] eqn:Hdemo;
      [|discriminate].
    cbn [rbind] in Hfinish. injection Hfinish as <-.
    apply demo_events_inv, demo_titles_NoDup in Hdemo as [Hfive Hkeys].
    rewrite firstn_all2 by lia.
    split; [lia | split; [done |]].
    intros Hne. destruct all_events as [|e rest]; [done |].
    by apply unique_loop_nonempty in Hu.
  - cbn [rbind] in Hfinish. injection Hfinish as <-.
    apply sublist_length in Hsub as Hle. simpl in Hle.
    rewrite firstn_all2 by lia.
    split; [simpl; lia | split; [done |]].
    intros _. split; [done |].
    intros e (i & Hi)%list_elem_of_lookup.
    rewrite <- Hu. by apply (unique_loop_first all_events ∅ i e).
Qed.

(** C2, amended. When both sources yield no events and the clock leaves
    room before the end of year 9999, the aggregator returns exactly 5
    fallback records, of the pairwise distinct categories arts,
    technology, food, music, networking in that order; their resolved
    times are pairwise distinct and increase in the order first, third,
    second, fourth, fifth record: the third record is earlier than the
    second. *)
Theorem aggregate_fallback city now log log1 log2 :
  valid_datetime now = true -> year now < MAXYEAR ->
  scrape_eventbrite_events world city log = ([], log1) ->
  scrape_meetup_events world city log1 = ([], log2) ->
  exists r t1 t2 t3 t4 t5,
    get_events_from_multiple_sources strftime world city now log
    = (Ok r, log2)
    /\ List.length r = 5%nat
    /\ map category r = ["arts"; "technology"; "food"; "music"; "networking"]
    /\ NoDup (map category r)
    /\ map parsed_datetime r
       = [PDatetime t1; PDatetime t2; PDatetime t3; PDatetime t4;
          PDatetime t5]
    /\ dt_lt t1 t3 /\ dt_lt t3 t2 /\ dt_lt t2 t4 /\ dt_lt t4 t5.
Proof.
  intros Hvalid Hyear Ha Hb.
  destruct (demo_events_ok strftime city now Hvalid Hyear)
    as (r & t1 & t2 & t3 & t4 & t5 & Hdemo & Ht & Hc & Hp & Hlt).
  exists r, t1, t2, t3, t4, t5.
  destruct (demo_titles_NoDup city r Ht) as [Hfive _].
  split; [| split; [done | split; [done | split; [| done]]]].
  - unfold get_events_from_multiple_sources, collect, bind, ret.
    rewrite Ha. simpl. rewrite Hb. unfold finish. simpl unique_loop.
    rewrite Hdemo. cbn [rbind]. by rewrite firstn_all2 by lia.
  - rewrite Hc.
    repeat (constructor;
            [ rewrite ?elem_of_cons, elem_of_nil; intros Hin;
              repeat (destruct Hin as [Hin | Hin]; [discriminate |]); done |]).
    constructor.
Qed.

End AggregatorFacts.

(** C2, as stated, fails: with both sources down the five fallback events
    are not in increasing order of resolved time, the second (three days
    after the anchor) being later than the third (two days after it). *)
Lemma fallback_times_not_increasing :
  exists r,
    get_events_from_multiple_sources Sample.strftime Sample.offline
      "Detroit" Sample.now []
    = (Ok r,
       [ "https://www.eventbrite.com/d/detroit/events/";
         "https://www.eventbrite.com/d/detroit/events/";
         "https://www.eventbrite.com/e/search?q=Detroit";
         "https://www.meetup.com/find/?keywords=&location=Detroit" ])
    /\ map parsed_datetime r
       = [ PDatetime (mkdt 2026 11 5 23 30 0 0);
           PDatetime (mkdt 2026 11 8 3 30 0 0);
           PDatetime (mkdt 2026 11 6 17 30 0 0);
           PDatetime (mkdt 2026 11 9 5 30 0 0);
           PDatetime (mkdt 2026 11 9 17 0 0 0) ]
    /\ ~ times_increasing r.
Proof.
  eexists. split; [vm_compute; reflexivity |]. split; [reflexivity |].
  intros Hinc.
  specialize (Hinc 1%nat 2%nat (mkdt 2026 11 8 3 30 0 0)
                   (mkdt 2026 11 6 17 30 0 0)).
  discriminate Hinc; [lia | reflexivity | reflexivity].
Qed.

Lemma aggregate_fallback_witness :
  exists r t1 t2 t3 t4 t5,
    get_events_from_multiple_sources Sample.strftime Sample.offline
      "Detroit" Sample.now []
    = (Ok r,
       [ "https://www.eventbrite.com/d/detroit/events/";
         "https://www.eventbrite.com/d/detroit/events/";
         "https://www.eventbrite.com/e/search?q=Detroit";
         "https://www.meetup.com/find/?keywords=&location=Detroit" ])
    /\ List.length r = 5%nat
    /\ map category r = ["arts"; "technology"; "food"; "music"; "networking"]
    /\ NoDup (map category r)
    /\ map parsed_datetime r
       = [PDatetime t1; PDatetime t2; PDatetime t3; PDatetime t4; PDatetime t5]
    /\ dt_lt t1 t3 /\ dt_lt t3 t2 /\ dt_lt t2 t4 /\ dt_lt t4 t5.
Proof.
  apply (aggregate_fallback Sample.strftime Sample.offline "Detroit"
           Sample.now []
           [ "https://www.eventbrite.com/d/detroit/events/";
             "https://www.eventbrite.com/d/detroit/events/";
             "https://www.eventbrite.com/e/search?q=Detroit" ]).
  - reflexivity.
  - unfold Sample.now, MAXYEAR. simpl. lia.
  - reflexivity.
  - reflexivity.
Defined.

Lemma aggregate_deduplicated_witness :
  let r := [Sample.jazz; Sample.market; Sample.talk] in
  let all_events := sources_in_order Sample.online "Detroit" [] in
  (List.length r <= 10)%nat
  /\ NoDup (title_key <$> r)
  /\ (all_events <> [] ->
      r `sublist_of` all_events
      /\ forall e, e ∈ all_events ->
           exists j e', first_occurrence all_events j e'
                        /\ title_key e' = title_key e
                        /\ e' ∈ r).
Proof.
  apply (aggregate_deduplicated Sample.strftime Sample.online "Detroit"
           Sample.now []
           [Sample.jazz; Sample.market; Sample.talk]
           [ "https://www.eventbrite.com/d/detroit/events/";
             "https://www.meetup.com/find/?keywords=&location=Detroit" ]).
  vm_compute. reflexivity.
Defined.

(** * Further properties of the code *)

(** ** Case folding *)

Lemma lower_char_idem c : Str.lower_char (Str.lower_char c) = Str.lower_char c.
Proof. destruct c as [[] [] [] [] [] [] [] []]; reflexivity. Qed.

Lemma lower_char_not_upper c : Str.is_upper (Str.lower_char c) = false.
Proof. destruct c as [[] [] [] [] [] [] [] []]; reflexivity. Qed.

Lemma lower_char_space c : Str.lower_char c = " "%char -> c = " "%char.
Proof. destruct c as [[] [] [] [] [] [] [] []]; (reflexivity || discriminate). Qed.

Lemma lower_idem s : Str.lower (Str.lower s) = Str.lower s.
Proof.
  induction s as [|c s IH]; simpl; [done |].
  by rewrite lower_char_idem, IH.
Qed.

Lemma lower_append s t : Str.lower (s +:+ t) = Str.lower s +:+ Str.lower t.
Proof.
  induction s as [|c s IH]; [done |].
  rewrite StrFacts.append_cons. simpl. by rewrite IH, StrFacts.append_cons.
Qed.

(** ** Categorizer *)

(** Categorization does not depend on the case of the title or of the
    description. *)
Theorem categorize_event_case_insensitive (title description : string) :
  categorize_event (Str.lower title) (Str.lower description)
  = categorize_event title description.
Proof.
  unfold categorize_event. cbv zeta.
  rewrite !lower_append, !lower_idem. reflexivity.
Qed.

(** A text in which "workshop" occurs is assigned music, sports, arts or
    technology: the keyword is listed under technology before education, so
    it never assigns education. *)
Theorem categorize_event_workshop (title description : string) :
  Str.occurs "workshop" (Str.lower (title +:+ " " +:+ description)) ->
  In (categorize_event title description)
     ["music"; "sports"; "arts"; "technology"].
Proof.
  intros Hocc. apply StrFacts.contains_spec in Hocc.
  unfold categorize_event, EVENT_CATEGORIES. cbv zeta.
  set (text := Str.lower (title +:+ " " +:+ description)) in *.
  cbn [first_category].
  destruct (existsb _ _); [simpl; tauto |].
  destruct (existsb _ _); [simpl; tauto |].
  destruct (existsb _ _); [simpl; tauto |].
  assert (Htech : existsb (fun keyword => Str.contains keyword text)
                    ["tech"; "coding"; "hackathon"; "conference"; "workshop";
                     "ai"; "startup"; "programming"; "software"; "digital"]
                  = true).
  { apply existsb_exists. exists "workshop". split; [simpl; tauto | done]. }
  rewrite Htech. simpl. tauto.
Qed.

Lemma categorize_event_workshop_witness :
  In (categorize_event "Pottery Workshop" "Hands-on class for beginners")
     ["music"; "sports"; "arts"; "technology"].
Proof.
  apply categorize_event_workshop.
  exists "pottery ", " hands-on class for beginners". reflexivity.
Defined.

(** ** Location cleanup *)

Lemma length_append s t :
  String.length (s +:+ t) = (String.length s + String.length t)%nat.
Proof.
  induction s as [|c s IH]; [done |].
  rewrite StrFacts.append_cons. simpl. by rewrite IH.
Qed.

(** The cleaned location is never empty: whatever the inputs, it has at
    least 5 characters. *)
Theorem parse_event_location_length (location_string city : string) :
  5 <= Str.len (parse_event_location location_string city).
Proof.
  unfold parse_event_location. cbv zeta.
  set (cleaned := fold_left remove_prefix prefixes_to_remove
                    (Str.strip location_string)).
  destruct (Str.is_empty location_string || _).
  - unfold Str.len. rewrite length_append. simpl. lia.
  - destruct (Str.len cleaned <? 5) eqn:Hlen; cbn [orb].
    + unfold Str.len. rewrite length_append. simpl. lia.
    + destruct (str_in (Str.lower cleaned) generic_locations).
      * unfold Str.len. rewrite length_append. simpl. lia.
      * apply Z.ltb_ge in Hlen. exact Hlen.
Qed.

(** ** Date/time parser *)

Lemma parse_event_datetime_future_witness :
  parse_event_datetime Sample.strptime Sample.no_fuzzy
    (Sample.clock_at Sample.now) "2027-01-15 10:00:00" "Detroit" 0
  = (Some (mkdt 2027 1 15 10 0 0 0), 1%nat).
Proof.
  apply (parse_event_datetime_future Sample.strptime Sample.no_fuzzy
           (Sample.clock_at Sample.now) "2027-01-15 10:00:00" "Detroit"
           (mkdt 2027 1 15 10 0 0 0) 0%nat).
  - discriminate.
  - discriminate.
  - by apply sample_parses_iso.
  - reflexivity.
Defined.

Section ParserMore.

Variable strptime : string -> string -> option datetime.
Variable fuzzy_parse : string -> option parsed.
Variable clock : nat -> datetime.

Lemma try_patterns_aware date_string d utcoffset t :
  Forall (fun q => strptime date_string q = None) patterns ->
  fuzzy_parse date_string = Some (Aware d utcoffset) ->
  try_patterns strptime fuzzy_parse clock patterns date_string t
  = (None, S t).
Proof.
  intros Hnone Hfuzzy.
  rewrite <- (app_nil_r patterns), try_patterns_skip by done.
  simpl. unfold fuzzy_fallback. by rewrite Hfuzzy.
Qed.

(** A text that no explicit pattern accepts and that the fuzzy parser reads
    as a time with a time zone is unresolved: the aware result cannot be
    ordered with the naive current time, and the error is swallowed. *)
Theorem parse_event_datetime_aware date_string city d utcoffset t :
  date_string <> "" -> date_string <> "Date/Time TBA" ->
  Forall (fun q => strptime date_string q = None) patterns ->
  fuzzy_parse date_string = Some (Aware d utcoffset) ->
  parse_event_datetime strptime fuzzy_parse clock date_string city t
  = (None, S t).
Proof.
  intros Hne Htba Hnone Hfuzzy. unfold parse_event_datetime.
  assert (Str.is_empty date_string = false) as -> by by destruct date_string.
  assert (String.eqb date_string "Date/Time TBA" = false) as ->
      by by apply String.eqb_neq.
  simpl. by apply (try_patterns_aware _ d utcoffset).
Qed.

Lemma handle_past_valid parsed_date now r :
  valid_datetime parsed_date = true ->
  handle_past parsed_date now = Some r -> valid_datetime r = true.
Proof.
  intros Hvalid. unfold handle_past, replace_year.
  destruct (dt_ltb parsed_date now); [| by intros [= <-]].
  destruct (valid_datetime (mkdt _ _ _ _ _ _ _)) eqn:Hr; [| discriminate].
  by intros [= <-].
Qed.

(** When the two library parsers return range-checked datetimes, as every
    [datetime] object is, so does the date parser: rolling a past date
    into next year never produces a date that does not exist. *)
Theorem parse_event_datetime_valid date_string city t r t' :
  (forall text format d,
      strptime text format = Some d -> valid_datetime d = true) ->
  (forall text d,
      fuzzy_parse text = Some (Naive d) -> valid_datetime d = true) ->
  parse_event_datetime strptime fuzzy_parse clock date_string city t
  = (Some r, t') ->
  valid_datetime r = true.
Proof.
  intros Hstrp Hfuzzy. unfold parse_event_datetime.
  destruct (_ || _); [discriminate |].
  generalize patterns. intros ps. revert t.
  induction ps as [|pattern rest IH]; intros t; simpl.
  - unfold fuzzy_fallback.
    destruct (fuzzy_parse date_string) as [[d | d off]|] eqn:Hd;
      try discriminate.
    intros [= H _]. eapply handle_past_valid; [| exact H]. by eapply Hfuzzy.
  - destruct (strptime date_string pattern) as [d|] eqn:Hd; [| apply IH].
    destruct (handle_past d (clock t)) as [r0|] eqn:Hpast; [| apply IH].
    intros [= <- _]. eapply handle_past_valid; [| exact Hpast].
    by eapply Hstrp.
Qed.

End ParserMore.

Lemma parse_event_datetime_aware_witness :
  parse_event_datetime Sample.strptime
    (fun _ => Some (Aware (mkdt 2026 12 5 14 0 0 0) 0))
    (Sample.clock_at Sample.now) "Saturday 2pm UTC" "Detroit" 0
  = (None, 1%nat).
Proof.
  apply (parse_event_datetime_aware Sample.strptime
           (fun _ => Some (Aware (mkdt 2026 12 5 14 0 0 0) 0))
           (Sample.clock_at Sample.now) "Saturday 2pm UTC" "Detroit"
           (mkdt 2026 12 5 14 0 0 0) 0 0%nat).
  - discriminate.
  - discriminate.
  - repeat constructor.
  - reflexivity.
Defined.

Lemma parse_event_datetime_valid_witness :
  valid_datetime (mkdt 2027 8 31 14 0 0 0) = true.
Proof.
  apply (parse_event_datetime_valid
           (fun text format => Sample.strptime text format ≫= Sample.checked)
           Sample.no_fuzzy (Sample.clock_at Sample.now)
           "2020-08-31 14:00:00" "Detroit" 0%nat
           (mkdt 2027 8 31 14 0 0 0) 1%nat).
  - intros text format d.
    destruct (Sample.strptime text format) as [x|]; simpl; [| discriminate].
    unfold Sample.checked.
    destruct (valid_datetime x) eqn:Hx; [| discriminate].
    by intros [= <-].
  - discriminate.
  - reflexivity.
Defined.

(** ** Aggregator *)

Lemma unique_loop_id events seen :
  NoDup (title_key <$> events) ->
  (forall e, e ∈ events -> title_key e ∉ seen) ->
  unique_loop events seen = events.
Proof.
  revert seen. induction events as [|x rest IH]; intros seen Hnd Hseen;
    simpl; [done |].
  rewrite fmap_cons in Hnd. apply NoDup_cons in Hnd as [Hx Hnd].
  rewrite decide_False by (apply Hseen; by left).
  f_equal. apply IH; [done |].
  intros e He [Heq%elem_of_singleton | Hin]%elem_of_union.
  - apply Hx. rewrite <- Heq. by apply list_elem_of_fmap_2.
  - by apply (Hseen e); [right |].
Qed.

Section AggregatorMore.

Variable strftime : datetime -> string -> string.
Variable world : nat -> string -> page.

Lemma finish_facts city now all_events r :
  finish strftime city now all_events = Ok r ->
  r <> [] /\ (List.length r <= 10)%nat /\ NoDup (title_key <$> r).
Proof.
  unfold finish. intros Hfinish.
  pose proof (unique_loop_NoDup all_events ∅) as Hnodup.
  destruct (unique_loop all_events ∅) as [|u us] eqn:Hu.
  - destruct (demo_events strftime city now) as [demo|] eqn:Hdemo;
      [|discriminate].
    cbn [rbind] in Hfinish. injection Hfinish as <-.
    apply demo_events_inv, demo_titles_NoDup in Hdemo as [Hfive Hkeys].
    rewrite firstn_all2 by lia.
    split; [by destruct demo | split; [lia | done]].
  - cbn [rbind] in Hfinish. injection Hfinish as <-.
    split; [done | split].
    + simpl. rewrite length_take. lia.
    + change (u :: take 9 us) with (take 10 (u :: us)).
      rewrite fmap_take.
      apply (sublist_NoDup _ (title_key <$> u :: us)); [done | apply sublist_take].
Qed.

Lemma get_events_facts city now log r log' :
  get_events_from_multiple_sources strftime world city now log
  = (Ok r, log') ->
  r <> [] /\ (List.length r <= 10)%nat /\ NoDup (title_key <$> r).
Proof.
  unfold get_events_from_multiple_sources, bind, ret.
  destruct (collect world city log) as [all_events log1].
  intros [= Hfinish _]. by apply finish_facts in Hfinish.
Qed.

(** The aggregator never answers with an empty list: whatever the sources
    give, a returned list has between 1 and 10 events. *)
Theorem get_events_from_multiple_sources_nonempty city now log r log' :
  get_events_from_multiple_sources strftime world city now log
  = (Ok r, log') ->
  (1 <= List.length r <= 10)%nat.
Proof.
  intros (Hne & Hle & _)%get_events_facts.
  destruct r; [done | simpl in *; lia].
Qed.

(** Aggregating again what the aggregator returned changes nothing: the
    list is already deduplicated, non-empty and at most 10 long. *)
Theorem finish_idempotent city now all_events r :
  finish strftime city now all_events = Ok r ->
  finish strftime city now r = Ok r.
Proof.
  intros (Hne & Hle & Hnd)%finish_facts. unfold finish.
  rewrite unique_loop_id by (done || set_solver).
  destruct r as [|e r]; [done |]. cbn [rbind].
  by rewrite firstn_all2 by lia.
Qed.

End AggregatorMore.

Lemma get_events_from_multiple_sources_nonempty_witness :
  (1 <= List.length [Sample.jazz; Sample.market; Sample.talk] <= 10)%nat.
Proof.
  apply (get_events_from_multiple_sources_nonempty Sample.strftime
           Sample.online "Detroit" Sample.now []
           [Sample.jazz; Sample.market; Sample.talk]
           [ "https://www.eventbrite.com/d/detroit/events/";
             "https://www.meetup.com/find/?keywords=&location=Detroit" ]).
  vm_compute. reflexivity.
Defined.

Lemma finish_idempotent_witness :
  finish Sample.strftime "Detroit" Sample.now
    [Sample.jazz; Sample.market; Sample.talk]
  = Ok [Sample.jazz; Sample.market; Sample.talk].
Proof.
  apply (finish_idempotent Sample.strftime "Detroit" Sample.now
           [Sample.jazz; Sample.market; Sample.jazz_again; Sample.talk;
            Sample.market]).
  vm_compute. reflexivity.
Defined.

Section RequestFacts.

Variable strftime : datetime -> string -> string.
Variable world : nat -> string -> page.

Lemma eventbrite_loop_trace urls events log :
  exists k, (k <= List.length urls)%nat
            /\ (urls <> [] -> (1 <= k)%nat)
            /\ snd (eventbrite_loop world urls events log)
               = log ++ firstn k urls
            /\ ((k < List.length urls)%nat ->
                fst (eventbrite_loop world urls events log) <> []).
Proof.
  revert events log. induction urls as [|url rest IH]; intros events log.
  - exists O. simpl. rewrite app_nil_r. repeat split; [lia | done | lia].
  - cbn [eventbrite_loop]. unfold bind, fetch.
    assert (Hnext : forall evs,
               exists k, (k <= List.length (url :: rest))%nat
                         /\ (url :: rest <> [] -> (1 <= k)%nat)
                         /\ snd (eventbrite_loop world rest evs (log ++ [url]))
                            = log ++ firstn k (url :: rest)
                         /\ ((k < List.length (url :: rest))%nat ->
                             fst (eventbrite_loop world rest evs (log ++ [url]))
                             <> [])).
    { intros evs. destruct (IH evs (log ++ [url])) as (k & Hk & _ & Hlog & Hne).
      exists (S k). simpl. rewrite Hlog, <- app_assoc. simpl.
      repeat split; [lia | lia | intros; apply Hne; lia]. }
    destruct (world (List.length log) url) as [event_cards|]; [| apply Hnext].
    destruct (events ++ extract 8 event_cards) as [|e l]; [apply Hnext |].
    exists 1%nat. unfold ret. simpl.
    repeat split; [lia | lia | done].
Qed.

(** One aggregation makes between 1 and 4 requests, in a fixed order: the
    first [k] of the three Eventbrite URLs, stopping before the third only
    when events were found, then the Meetup search URL exactly when
    Eventbrite gave fewer than 5 events. *)
Theorem get_events_from_multiple_sources_requests city now log :
  let a := fst (scrape_eventbrite_events world city log) in
  exists k, (1 <= k <= 3)%nat
    /\ ((k < 3)%nat -> a <> [])
    /\ snd (get_events_from_multiple_sources strftime world city now log)
       = log ++ firstn k (eventbrite_urls city)
         ++ (if (List.length a <? 5)%nat
             then ["https://www.meetup.com/find/?keywords=&location="
                   +:+ Str.replace " " "%20" city]
             else []).
Proof.
  cbv zeta. unfold get_events_from_multiple_sources, collect, bind, ret.
  unfold scrape_eventbrite_events.
  destruct (eventbrite_loop_trace (eventbrite_urls city) [] log)
    as (k & Hk & Hk1 & Hlog & Hne).
  exists k. simpl in Hk.
  destruct (eventbrite_loop world (eventbrite_urls city) [] log)
    as [a log1]. simpl in Hlog, Hne. simpl fst. subst log1.
  split; [split; [by apply Hk1 | lia] |]. split; [done |].
  assert (Ha : match a with [] => [] | _ => [] ++ a end = a) by by destruct a.
  rewrite Ha.
  destruct (List.length a <? 5)%nat.
  - unfold scrape_meetup_events, bind, fetch.
    destruct (world _ _); unfold ret; simpl; by rewrite <- app_assoc.
  - simpl. by rewrite app_nil_r.
Qed.

End RequestFacts.

(** ** Demo events *)

Lemma dt_lt_dates a b : date_lt a b -> dt_lt a b.
Proof. intros H. apply dt_ltb_spec. by left. Qed.

Lemma dt_add_after_next_day now base delta t :
  advance_day now = Some base -> dt_add base delta = Some t -> dt_lt now t.
Proof.
  intros Hbase Ht.
  apply advance_day_spec in Hbase as [Hbase _].
  apply dt_add_inv in Ht as (d' & Hd' & ->).
  apply add_days_spec in Hd' as [[[_ ->] | [_ Hlt]] _]; apply dt_lt_dates.
  - exact Hbase.
  - unfold date_lt in *. simpl. lia.
Qed.

Lemma demo_events_future strftime city now r :
  valid_datetime now = true ->
  demo_events strftime city now = Ok r ->
  Forall (fun e => exists t, parsed_datetime e = PDatetime t /\ dt_lt now t) r.
Proof.
  intros Hvalid. unfold demo_events.
  unfold add at 1. rewrite dt_add_one_day by done.
  destruct (advance_day now) as [base|] eqn:Hbase; cbn [rbind]; [|discriminate].
  pose proof (dt_add_after_next_day now base) as Hafter.
  unfold add.
  repeat match goal with
         | |- context [dt_add base ?delta] =>
             let H := fresh "Hadd" in
             destruct (dt_add base delta) eqn:H; cbn [rbind]; [|discriminate];
             apply (Hafter _ _ Hbase) in H
         end.
  intros [= <-].
  repeat (constructor; [eexists; split; [reflexivity | done] |]).
  constructor.
Qed.

Section FallbackFacts.

Variable strftime : datetime -> string -> string.
Variable world : nat -> string -> page.

(** When the sources give nothing, every event the aggregator returns
    carries a resolved time strictly after the current moment. *)
Theorem fallback_events_in_future city now log r log' :
  valid_datetime now = true ->
  sources_in_order world city log = [] ->
  get_events_from_multiple_sources strftime world city now log
  = (Ok r, log') ->
  Forall (fun e => exists t, parsed_datetime e = PDatetime t /\ dt_lt now t) r.
Proof.
  intros Hvalid Hnone. rewrite <- collect_sources in Hnone.
  unfold get_events_from_multiple_sources, bind, ret.
  destruct (collect world city log) as [all_events log1]. simpl in Hnone.
  subst all_events. unfold finish. simpl unique_loop.
  destruct (demo_events strftime city now) as [demo|] eqn:Hdemo;
    cbn [rbind]; [| discriminate].
  intros [= <- _].
  apply demo_events_future in Hdemo; [| done].
  apply Forall_forall. intros e He. rewrite Forall_forall in Hdemo.
  apply Hdemo. eapply elem_of_sublist; [exact He | apply sublist_take].
Qed.

End FallbackFacts.

Lemma fallback_events_in_future_witness :
  Forall (fun e => exists t, parsed_datetime e = PDatetime t
                             /\ dt_lt Sample.now t)
    (match fst (get_events_from_multiple_sources Sample.strftime
                  Sample.offline "Detroit" Sample.now []) with
     | Ok r => r
     | Raise _ => []
     end).
Proof.
  eapply (fallback_events_in_future Sample.strftime Sample.offline "Detroit"
            Sample.now []).
  - reflexivity.
  - reflexivity.
  - vm_compute. reflexivity.
Defined.

(** ** Filter handler *)

Section FilterMore.

Variable strptime : string -> string -> option datetime.

Lemma elem_of_list_filter_bool (p : event -> bool) events e :
  e ∈ List.filter p events <-> e ∈ events /\ p e = true.
Proof. rewrite !list_elem_of_In. apply filter_In. Qed.

(** A filter request whose options are all missing, empty, or the category
    "all" returns the submitted list unchanged. *)
Theorem filter_events_no_filter events filters :
  given (f_category filters) = None \/ f_category filters = Some "all" ->
  given (f_date_from filters) = None ->
  given (f_date_to filters) = None ->
  given (f_search filters) = None ->
  filter_events strptime events filters
  = Ok (JsonFilter events (List.length events)).
Proof.
  intros Hcat Hfrom Hto Hsearch.
  unfold filter_events, category_filter, date_from_filter, date_to_filter,
    search_filter.
  rewrite Hfrom, Hto, Hsearch.
  destruct Hcat as [-> | ->]; reflexivity.
Qed.

(** With a category as the only option, the answer holds exactly the
    submitted events of that category. *)
Theorem filter_events_category events filters c :
  given (f_category filters) = Some c -> c <> "all" ->
  given (f_date_from filters) = None ->
  given (f_date_to filters) = None ->
  given (f_search filters) = None ->
  exists out,
    filter_events strptime events filters
    = Ok (JsonFilter out (List.length out))
    /\ forall e, e ∈ out <-> e ∈ events /\ category e = c.
Proof.
  intros Hcat Hall Hfrom Hto Hsearch.
  unfold filter_events, category_filter, date_from_filter, date_to_filter,
    search_filter.
  rewrite Hcat, Hfrom, Hto, Hsearch.
  apply String.eqb_neq in Hall. rewrite Hall. simpl.
  eexists. split; [reflexivity |].
  intros e. rewrite elem_of_list_filter_bool. by rewrite String.eqb_eq.
Qed.

(** With a search text as the only option, the answer holds exactly the
    submitted events whose title or description contains the text, case
    being ignored on both sides. *)
Theorem filter_events_search events filters text :
  given (f_search filters) = Some text ->
  given (f_category filters) = None ->
  given (f_date_from filters) = None ->
  given (f_date_to filters) = None ->
  exists out,
    filter_events strptime events filters
    = Ok (JsonFilter out (List.length out))
    /\ forall e, e ∈ out <->
         e ∈ events
         /\ (Str.occurs (Str.lower text) (Str.lower (title e))
             \/ Str.occurs (Str.lower text) (Str.lower (description e))).
Proof.
  intros Hsearch Hcat Hfrom Hto.
  unfold filter_events, category_filter, date_from_filter, date_to_filter,
    search_filter.
  rewrite Hcat, Hfrom, Hto, Hsearch. simpl.
  eexists. split; [reflexivity |].
  intros e. rewrite elem_of_list_filter_bool.
  by rewrite orb_true_iff, !StrFacts.contains_spec.
Qed.

(** A date bound that [strptime] rejects makes the request fail with
    [ValueError], whatever the events, even none: [date_from] always, and
    [date_to] when no [date_from] is given. *)
Theorem filter_events_malformed_date events filters text :
  (given (f_date_from filters) = Some text
   \/ (given (f_date_from filters) = None
       /\ given (f_date_to filters) = Some text)) ->
  strptime text "%Y-%m-%d" = None ->
  filter_events strptime events filters = Raise ValueError.
Proof.
  intros Hbound Hbad.
  unfold filter_events, date_from_filter, date_to_filter, strptime_r.
  destruct Hbound as [-> | [-> ->]]; by rewrite Hbad.
Qed.

End FilterMore.

Lemma filter_events_no_filter_witness :
  filter_events Sample.strptime [Sample.jazz_json; Sample.market]
    (mkfilters (Some "all") (Some "") None None)
  = Ok (JsonFilter [Sample.jazz_json; Sample.market] 2).
Proof.
  apply (filter_events_no_filter Sample.strptime
           [Sample.jazz_json; Sample.market]
           (mkfilters (Some "all") (Some "") None None)).
  - by right.
  - reflexivity.
  - reflexivity.
  - reflexivity.
Defined.

Lemma filter_events_category_witness :
  exists out,
    filter_events Sample.strptime
      [Sample.jazz_json; Sample.market; Sample.talk]
      (mkfilters (Some "music") None None None)
    = Ok (JsonFilter out (List.length out))
    /\ forall e, e ∈ out <->
         e ∈ [Sample.jazz_json; Sample.market; Sample.talk]
         /\ category e = "music".
Proof.
  apply (filter_events_category Sample.strptime
           [Sample.jazz_json; Sample.market; Sample.talk]
           (mkfilters (Some "music") None None None) "music").
  - reflexivity.
  - discriminate.
  - reflexivity.
  - reflexivity.
  - reflexivity.
Defined.

Lemma filter_events_search_witness :
  exists out,
    filter_events Sample.strptime
      [Sample.jazz_json; Sample.market; Sample.talk]
      (mkfilters None None None (Some "JAZZ"))
    = Ok (JsonFilter out (List.length out))
    /\ forall e, e ∈ out <->
         e ∈ [Sample.jazz_json; Sample.market; Sample.talk]
         /\ (Str.occurs (Str.lower "JAZZ") (Str.lower (title e))
             \/ Str.occurs (Str.lower "JAZZ") (Str.lower (description e))).
Proof.
  apply (filter_events_search Sample.strptime
           [Sample.jazz_json; Sample.market; Sample.talk]
           (mkfilters None None None (Some "JAZZ")) "JAZZ").
  - reflexivity.
  - reflexivity.
  - reflexivity.
  - reflexivity.
Defined.

Lemma filter_events_malformed_date_witness :
  filter_events Sample.strptime [] (mkfilters None (Some "31/08/2026") None None)
  = Raise ValueError.
Proof.
  apply (filter_events_malformed_date Sample.strptime []
           (mkfilters None (Some "31/08/2026") None None) "31/08/2026").
  - by left.
  - reflexivity.
Defined.

Section FilterAgain.

Variable strptime : string -> string -> option datetime.

Lemma Forall_sublist (P : event -> Prop) l1 l2 :
  l1 `sublist_of` l2 -> Forall P l2 -> Forall P l1.
Proof.
  intros Hsub Hall. apply Forall_forall. intros e He.
  rewrite Forall_forall in Hall. apply Hall. by eapply elem_of_sublist.
Qed.

Lemma list_filter_Forall (p : event -> bool) l :
  Forall (fun e => p e = true) (List.filter p l).
Proof.
  induction l as [|e l IH]; simpl; [constructor |].
  destruct (p e) eqn:He; [by constructor | done].
Qed.

Lemma list_filter_id (p : event -> bool) l :
  Forall (fun e => p e = true) l -> List.filter p l = l.
Proof.
  induction 1 as [|e l He _ IH]; simpl; [done |]. by rewrite He, IH.
Qed.

Lemma filter_r_Forall (p : event -> result bool) l out :
  filter_r p l = Ok out -> Forall (fun e => p e = Ok true) out.
Proof.
  revert out. induction l as [|e l IH]; simpl; intros out H.
  - injection H as <-. constructor.
  - destruct (p e) as [b|] eqn:He; simpl in H; [|discriminate].
    destruct (filter_r p l) as [rest|]; simpl in H; [|discriminate].
    injection H as <-. specialize (IH rest eq_refl).
    destruct b; [by constructor | done].
Qed.

Lemma filter_r_id (p : event -> result bool) l :
  Forall (fun e => p e = Ok true) l -> filter_r p l = Ok l.
Proof.
  induction 1 as [|e l He _ IH]; simpl; [done |]. by rewrite He, IH.
Qed.


Lemma category_filter_fixed filters l l' :
  l' `sublist_of` category_filter filters l ->
  category_filter filters l' = l'.
Proof.
  unfold category_filter. destruct (given _) as [c|]; [| done].
  destruct (negb _); [| done].
  intros Hsub. apply list_filter_id.
  eapply Forall_sublist; [exact Hsub | apply list_filter_Forall].
Qed.

Lemma search_filter_fixed filters l l' :
  l' `sublist_of` search_filter filters l ->
  search_filter filters l' = l'.
Proof.
  unfold search_filter. destruct (given _) as [text|]; [| done].
  intros Hsub. apply list_filter_id.
  eapply Forall_sublist; [exact Hsub | apply list_filter_Forall].
Qed.

Lemma date_from_filter_fixed filters l l1 l' :
  date_from_filter strptime filters l = Ok l1 ->
  l' `sublist_of` l1 ->
  date_from_filter strptime filters l' = Ok l'.
Proof.
  unfold date_from_filter. destruct (given _) as [text|]; [| done].
  destruct (strptime_r strptime text _) as [d|]; simpl; [| discriminate].
  intros Hrun Hsub. apply filter_r_id.
  eapply Forall_sublist; [exact Hsub | by eapply filter_r_Forall].
Qed.

Lemma date_to_filter_fixed filters l l1 l' :
  date_to_filter strptime filters l = Ok l1 ->
  l' `sublist_of` l1 ->
  date_to_filter strptime filters l' = Ok l'.
Proof.
  unfold date_to_filter. destruct (given _) as [text|]; [| done].
  destruct (strptime_r strptime text _) as [d|]; simpl; [| discriminate].
  intros Hrun Hsub. apply filter_r_id.
  eapply Forall_sublist; [exact Hsub | by eapply filter_r_Forall].
Qed.

(** Filtering is idempotent: submitting the answer of a filter request
    again with the same options returns it unchanged. *)
Theorem filter_events_idempotent events filters out total :
  filter_events strptime events filters = Ok (JsonFilter out total) ->
  filter_events strptime out filters = Ok (JsonFilter out total).
Proof.
  unfold filter_events. intros H.
  destruct (date_from_filter _ _ (category_filter filters events))
    as [l1|] eqn:H1; simpl in H; [|discriminate].
  destruct (date_to_filter _ _ l1) as [l2|] eqn:H2; simpl in H; [|discriminate].
  injection H as <- <-.
  set (out := search_filter filters l2).
  assert (S2 : out `sublist_of` l2) by apply search_filter_sublist.
  assert (S1 : out `sublist_of` l1).
  { etransitivity; [exact S2 | by eapply date_to_filter_sublist]. }
  assert (S0 : out `sublist_of` category_filter filters events).
  { etransitivity; [exact S1 | by eapply date_from_filter_sublist]. }
  rewrite (category_filter_fixed filters events out S0).
  rewrite (date_from_filter_fixed filters _ l1 out H1 S1). simpl.
  rewrite (date_to_filter_fixed filters _ l2 out H2 S2). simpl.
  by rewrite (search_filter_fixed filters l2 out).
Qed.


End FilterAgain.

Lemma filter_events_idempotent_witness :
  filter_events Sample.strptime [Sample.jazz_json]
    (mkfilters (Some "music") None None (Some "jazz"))
  = Ok (JsonFilter [Sample.jazz_json] 1).
Proof.
  apply (filter_events_idempotent Sample.strptime
           [Sample.jazz_json; Sample.market; Sample.talk]
           (mkfilters (Some "music") None None (Some "jazz"))).
  reflexivity.
Defined.


Lemma filter_events_json_date_bound_witness : @nil event = [].
Proof.
  apply (filter_events_json_date_bound Sample.strptime
           [Sample.market; Sample.jazz_again]
           (mkfilters None (Some "2026-08-01") None None) [] 0%nat).
  - repeat constructor.
  - left. discriminate.
  - reflexivity.
Defined.

(** ** Search handler *)

Lemma digest_not_empty_message e rest :
  create_weekend_digest (e :: rest) <> "No events found for this weekend.".
Proof. unfold create_weekend_digest. discriminate. Qed.

Section SearchMore.

Variable strftime : datetime -> string -> string.
Variable world : nat -> string -> page.

(** A search that is served answers with the trimmed city, between 1 and
    10 events, their count, and the digest of these events, which is never
    the "No events found for this weekend." sentence. *)
Theorem search_events_served (s : string) now log resp log' :
  Str.strip s <> "" ->
  search_events strftime world (Some s) now log = (Ok resp, log') ->
  exists events,
    resp = JsonSearch (Str.strip s) events (create_weekend_digest events)
             (List.length events)
    /\ (1 <= List.length events <= 10)%nat
    /\ create_weekend_digest events <> "No events found for this weekend.".
Proof.
  intros Hcity. unfold search_events.
  change (default "Detroit" (Some s)) with s. cbv zeta.
  destruct (Str.strip s) as [|a city] eqn:Hs; [done |]. cbn [Str.is_empty].
  unfold bind, ret.
  destruct (get_events_from_multiple_sources strftime world (String a city)
              now log) as [[events|] log1] eqn:Hget; cbn [rbind];
    [| discriminate].
  intros [= <- _]. exists events.
  apply get_events_facts in Hget as (Hne & Hle & _).
  destruct events as [|e rest]; [done |].
  split; [done | split; [simpl in *; lia | apply digest_not_empty_message]].
Qed.

End SearchMore.

Lemma search_events_served_witness :
  exists events,
    JsonSearch "Detroit" [Sample.jazz; Sample.market; Sample.talk]
      (create_weekend_digest [Sample.jazz; Sample.market; Sample.talk]) 3
    = JsonSearch (Str.strip " Detroit ") events (create_weekend_digest events)
        (List.length events)
    /\ (1 <= List.length events <= 10)%nat
    /\ create_weekend_digest events <> "No events found for this weekend.".
Proof.
  apply (search_events_served Sample.strftime Sample.online " Detroit "
           Sample.now []
           (JsonSearch "Detroit" [Sample.jazz; Sample.market; Sample.talk]
              (create_weekend_digest [Sample.jazz; Sample.market; Sample.talk])
              3)
           [ "https://www.eventbrite.com/d/detroit/events/";
             "https://www.meetup.com/find/?keywords=&location=Detroit" ]).
  - vm_compute. discriminate.
  - vm_compute. reflexivity.
Defined.

(** ** Report *)

Lemma strip_head c s :
  Str.is_space c = false -> exists s', Str.strip (String c s) = String c s'.
Proof.
  intros Hc. unfold Str.strip. cbn [Str.lstrip]. rewrite Hc.
  cbn [Str.rstrip]. destruct (Str.rstrip s); rewrite ?Hc; by eexists.
Qed.

Lemma starts_not_blank c s t :
  Str.is_space c = false -> Str.strip (String c s +:+ t) <> "".
Proof.
  intros Hc. rewrite StrFacts.append_cons.
  destruct (strip_head c (s +:+ t) Hc) as [s' ->]. discriminate.
Qed.

Section ReportFacts.

Variable markup_ok : string -> bool.

Lemma paragraph_inv text st f :
  paragraph markup_ok text st = Ok f -> f = Paragraph text st.
Proof.
  unfold paragraph. destruct (markup_ok text); [| discriminate].
  by intros [= <-].
Qed.

Lemma digest_story_inv digest_paragraphs story :
  digest_story markup_ok digest_paragraphs = Ok story ->
  story = map (fun para => Paragraph para Normal)
            (List.filter (fun para => negb (Str.is_empty (Str.strip para)))
               digest_paragraphs).
Proof.
  revert story. induction digest_paragraphs as [|para rest IH];
    intros story; simpl.
  - by intros [= <-].
  - destruct (negb (Str.is_empty (Str.strip para))); [| apply IH].
    destruct (paragraph markup_ok para Normal) as [p|] eqn:Hp;
      cbn [rbind]; [| discriminate].
    destruct (digest_story markup_ok rest) as [ps|]; cbn [rbind];
      [| discriminate].
    intros [= <-]. apply paragraph_inv in Hp as ->. simpl.
    f_equal. by apply IH.
Qed.

Lemma event_block_inv e block :
  event_block markup_ok e = Ok block ->
  block = [ Paragraph ("<b>" +:+ title e +:+ "</b>") Heading3;
            Paragraph ("<b>Date & Time:</b> " +:+ date_time e) Normal;
            Paragraph ("<b>Location:</b> " +:+ location e) Normal;
            Paragraph ("<b>Description:</b> " +:+ description e) Normal;
            Spacer 1 15 ].
Proof.
  unfold event_block.
  repeat match goal with
         | |- context [paragraph markup_ok ?text ?st] =>
             let H := fresh "Hp" in
             destruct (paragraph markup_ok text st) eqn:H; cbn [rbind];
             [apply paragraph_inv in H; subst | discriminate]
         end.
  by intros [= <-].
Qed.

Lemma event_block_not_blank e block text st :
  event_block markup_ok e = Ok block ->
  Paragraph text st ∈ block -> Str.strip text <> "".
Proof.
  intros ->%event_block_inv. rewrite !elem_of_cons, elem_of_nil.
  intros [H | [H | [H | [H | [H | []]]]]]; try discriminate;
    injection H as -> _; by apply starts_not_blank.
Qed.

Lemma event_blocks_not_blank events blocks text st :
  event_blocks markup_ok events = Ok blocks ->
  Paragraph text st ∈ blocks -> Str.strip text <> "".
Proof.
  revert blocks. induction events as [|e rest IH]; intros blocks; simpl.
  - intros [= <-]. by intros ?%elem_of_nil.
  - destruct (event_block markup_ok e) as [block|] eqn:Hb; cbn [rbind];
      [| discriminate].
    destruct (event_blocks markup_ok rest) as [bs|]; cbn [rbind];
      [| discriminate].
    intros [= <-]. rewrite elem_of_app. intros [H | H].
    + by eapply event_block_not_blank.
    + by eapply IH.
Qed.

Lemma event_blocks_length events blocks :
  event_blocks markup_ok events = Ok blocks ->
  List.length blocks = (5 * List.length events)%nat.
Proof.
  revert blocks. induction events as [|e rest IH]; intros blocks; simpl.
  - by intros [= <-].
  - destruct (event_block markup_ok e) as [block|] eqn:Hb; cbn [rbind];
      [| discriminate].
    destruct (event_blocks markup_ok rest) as [bs|]; cbn [rbind];
      [| discriminate].
    intros [= <-]. apply event_block_inv in Hb as ->.
    rewrite length_app, (IH bs eq_refl). simpl. lia.
Qed.

Lemma report_story_inv events city digest story :
  report_story markup_ok events city digest = Ok story ->
  exists blocks,
    event_blocks markup_ok events = Ok blocks
    /\ story
       = [ Paragraph ("Local Events in " +:+ city) CustomTitle; Spacer 1 20;
           Paragraph "Weekend Plan Digest" Heading2; Spacer 1 12 ]
         ++ map (fun para => Paragraph para Normal)
              (List.filter (fun para => negb (Str.is_empty (Str.strip para)))
                 (Str.split "010" digest))
         ++ [ Spacer 1 20; Paragraph "All Events" Heading2; Spacer 1 12 ]
         ++ blocks.
Proof.
  unfold report_story. cbv zeta.
  destruct (paragraph markup_ok ("Local Events in " +:+ city) CustomTitle)
    as [p1|] eqn:H1; cbn [rbind]; [| discriminate].
  destruct (paragraph markup_ok "Weekend Plan Digest" Heading2)
    as [p2|] eqn:H2; cbn [rbind]; [| discriminate].
  destruct (digest_story markup_ok (Str.split "010" digest))
    as [ds|] eqn:H3; cbn [rbind]; [| discriminate].
  destruct (paragraph markup_ok "All Events" Heading2)
    as [p4|] eqn:H4; cbn [rbind]; [| discriminate].
  destruct (event_blocks markup_ok events) as [blocks|] eqn:H5;
    cbn [rbind]; [| discriminate].
  intros [= <-]. exists blocks. split; [done |].
  apply paragraph_inv in H1 as ->. apply paragraph_inv in H2 as ->.
  apply paragraph_inv in H4 as ->. by apply digest_story_inv in H3 as ->.
Qed.

(** No paragraph of a story that was built is blank: blank lines of the
    digest are left out, and every other paragraph starts with a fixed
    label. *)
Theorem create_pdf_report_no_blank_paragraph events city digest story text st :
  report_story markup_ok events city digest = Ok story ->
  Paragraph text st ∈ story ->
  Str.strip text <> "".
Proof.
  intros (blocks & Hblocks & ->)%report_story_inv.
  rewrite !elem_of_app, !elem_of_cons, !elem_of_nil.
  intros [H | [H | [H | H]]].
  - destruct H as [H | [H | [H | [H | []]]]]; try discriminate;
      injection H as -> _; [by apply starts_not_blank | discriminate].
  - apply list_elem_of_fmap in H as (para & [= <- _] & Hpara).
    apply list_elem_of_In, filter_In in Hpara as [_ Hpara].
    by destruct (Str.strip text).
  - destruct H as [H | [H | [H | []]]]; try discriminate.
    injection H as -> _. discriminate.
  - by eapply event_blocks_not_blank.
Qed.

(** A story that was built holds the 7 fixed flowables, one paragraph per
    non-blank line of the digest, and 5 flowables per event. *)
Theorem create_pdf_report_length events city digest story :
  report_story markup_ok events city digest = Ok story ->
  List.length story
  = (7 + List.length
           (List.filter (fun para => negb (Str.is_empty (Str.strip para)))
              (Str.split "010" digest))
     + 5 * List.length events)%nat.
Proof.
  intros (blocks & Hblocks & ->)%report_story_inv.
  rewrite !length_app, length_map, (event_blocks_length _ _ Hblocks).
  simpl List.length. lia.
Qed.

(** A paragraph that reportlab rejects, here the title of an event, makes
    the report fail with [ValueError]: no story is built. *)
Lemma report_story_rejected_title e events city digest :
  markup_ok ("Local Events in " +:+ city) = true ->
  markup_ok "Weekend Plan Digest" = true ->
  markup_ok "All Events" = true ->
  (exists lines, digest_story markup_ok (Str.split "010" digest) = Ok lines) ->
  markup_ok ("<b>" +:+ title e +:+ "</b>") = false ->
  report_story markup_ok (e :: events) city digest = Raise ValueError.
Proof.
  intros H1 H2 H3 [lines H4] H5. unfold report_story, paragraph. cbv zeta.
  rewrite H1, H2, H3, H4. cbn [rbind event_blocks].
  unfold event_block, paragraph. by rewrite H5.
Qed.

End ReportFacts.

(** ** Download handler *)

Lemma slug_no_space city :
  Str.contains " " (Str.lower (Str.replace " " "_" city)) = false.
Proof.
  induction city as [|a city IH]; [reflexivity |].
  cbn [Str.replace]. destruct (Ascii.eqb a " ") eqn:Ha.
  - change ("_" +:+ Str.replace " " "_" city)
      with (String "_" (Str.replace " " "_" city)).
    cbn [Str.lower Str.contains]. rewrite IH. reflexivity.
  - cbn [Str.lower Str.contains Str.startswith]. rewrite IH.
    destruct (Ascii.eqb " " (Str.lower_char a)) eqn:Hl; [| reflexivity].
    apply Ascii.eqb_eq in Hl. symmetry in Hl. apply lower_char_space in Hl.
    subst a. discriminate.
Qed.

Section DownloadFacts.

Variable markup_ok : string -> bool.
Variable doc_build : list flowable -> result string.
Variable strftime : datetime -> string -> string.

(** When a download is served, the name of the file is "events_", a slug of
    the city, "_", the date stamp and ".pdf"; the slug contains no space
    and is all lower case, and is "unknown_city" when the request names no
    city.  The bytes are those of the built story. *)
Theorem download_pdf_filename city events digest now pdf_buffer filename :
  download_pdf markup_ok doc_build strftime city events digest now
  = Ok (pdf_buffer, filename) ->
  exists slug,
    filename
    = "events_" +:+ slug +:+ "_" +:+ strftime now "%Y%m%d" +:+ ".pdf"
    /\ Str.contains " " slug = false
    /\ Str.lower slug = slug
    /\ (city = None -> slug = "unknown_city")
    /\ create_pdf_report markup_ok doc_build (default [] events)
         (default "Unknown City" city) (default "" digest)
       = Ok pdf_buffer.
Proof.
  unfold download_pdf. cbv zeta.
  destruct (create_pdf_report _ _ _ _ _) as [buffer|] eqn:Hreport;
    cbn [rbind]; [| discriminate].
  intros [= <- <-].
  exists (Str.lower (Str.replace " " "_" (default "Unknown City" city))).
  split; [reflexivity |]. split; [apply slug_no_space |].
  split; [apply lower_idem |]. split; [by intros -> | done].
Qed.

(** A report that cannot be built leaves the download without a file
    name: the exception is the answer. *)
Lemma download_pdf_raises city events digest now e :
  create_pdf_report markup_ok doc_build (default [] events)
    (default "Unknown City" city) (default "" digest) = Raise e ->
  download_pdf markup_ok doc_build strftime city events digest now = Raise e.
Proof. unfold download_pdf. cbv zeta. by intros ->. Qed.

End DownloadFacts.

(** ** Source URLs *)

Lemma replace_absent c r s :
  Str.contains (String c "") s = false -> Str.replace c r s = s.
Proof.
  induction s as [|a s IH]; [done |].
  cbn [Str.contains Str.startswith Str.replace].
  rewrite andb_true_r, orb_false_iff. intros [Hc Hs].
  rewrite Ascii.eqb_sym, Hc. by rewrite IH.
Qed.

Lemma lower_no_space s :
  Str.contains " " s = false -> Str.contains " " (Str.lower s) = false.
Proof.
  induction s as [|a s IH]; [done |].
  cbn [Str.lower Str.contains Str.startswith].
  rewrite !andb_true_r, !orb_false_iff. intros [Ha Hs]. split; [| by apply IH].
  destruct (Ascii.eqb " " (Str.lower_char a)) eqn:Hl; [| done].
  apply Ascii.eqb_eq in Hl. symmetry in Hl. apply lower_char_space in Hl.
  subst a. discriminate.
Qed.

(** For a city name without a space, the first two Eventbrite URLs are the
    same: a failed first request is repeated as it was. *)
Theorem eventbrite_urls_repeat city :
  Str.contains " " city = false ->
  exists u v, eventbrite_urls city = [u; u; v].
Proof.
  intros Hcity. unfold eventbrite_urls.
  rewrite (replace_absent " " "-" (Str.lower city))
    by by apply lower_no_space.
  by eexists _, _.
Qed.

Lemma eventbrite_urls_repeat_witness :
  exists u v, eventbrite_urls "Detroit" = [u; u; v].
Proof. apply eventbrite_urls_repeat. reflexivity. Defined.

Lemma create_pdf_report_no_blank_paragraph_witness :
  Str.strip "No events found for this weekend." <> "".
Proof.
  eapply (create_pdf_report_no_blank_paragraph Sample.markup_ok
            [Sample.market] "Detroit"
            (nl +:+ "No events found for this weekend." +:+ nl)
            _ "No events found for this weekend." Normal).
  - vm_compute. reflexivity.
  - do 4 apply list_elem_of_further. apply list_elem_of_here.
Defined.

Lemma create_pdf_report_length_witness :
  List.length
    (match report_story Sample.markup_ok [Sample.market; Sample.talk]
             "Detroit" (nl +:+ "No events found for this weekend." +:+ nl) with
     | Ok story => story
     | Raise _ => []
     end)
  = (7 + List.length
           (List.filter (fun para => negb (Str.is_empty (Str.strip para)))
              (Str.split "010"
                 (nl +:+ "No events found for this weekend." +:+ nl)))
     + 5 * List.length [Sample.market; Sample.talk])%nat.
Proof.
  apply (create_pdf_report_length Sample.markup_ok
           [Sample.market; Sample.talk] "Detroit"
           (nl +:+ "No events found for this weekend." +:+ nl)).
  vm_compute. reflexivity.
Defined.

Lemma download_pdf_filename_witness :
  exists slug,
    "events_new_york_20261103.pdf"
    = "events_" +:+ slug +:+ "_" +:+ "20261103" +:+ ".pdf"
    /\ Str.contains " " slug = false
    /\ Str.lower slug = slug
    /\ (Some "New York" = None -> slug = "unknown_city")
    /\ create_pdf_report Sample.markup_ok Sample.doc_build
         (default [] (Some [Sample.market]))
         (default "Unknown City" (Some "New York")) (default "" None)
       = Ok "%PDF-1.4".
Proof.
  apply (download_pdf_filename Sample.markup_ok Sample.doc_build
           (fun _ _ => "20261103") (Some "New York") (Some [Sample.market])
           None Sample.now "%PDF-1.4" "events_new_york_20261103.pdf").
  reflexivity.
Defined.

(** An event whose title opens a tag it never closes: the report is not
    built and the download has no file. *)
Lemma download_pdf_rejected_title :
  download_pdf Sample.markup_ok Sample.doc_build Sample.strftime
    (Some "Detroit")
    (Some [mkevent "Tom & Jerry <i>Live" "Date/Time TBA" PNone
             "Downtown Detroit" "No description available" "other" ""])
    (Some "") Sample.now
  = Raise ValueError.
Proof. reflexivity. Qed.

(** ** Source caps *)

(** One scrape of the first source yields at most 8 events and one scrape
    of the second at most 6, whatever the pages hold. *)
Theorem scrapers_event_caps world city log :
  (List.length (fst (scrape_eventbrite_events world city log)) <= 8)%nat
  /\ (List.length (fst (scrape_meetup_events world city log)) <= 6)%nat.
Proof.
  split; [apply eventbrite_loop_length | apply scrape_meetup_events_length].
Qed.
